(** * Interactive card and viewport-triggered section: a shallow embedding

    The development embeds the stateful logic of two React components,
    [EventCard3D] (src/components/3d/EventCard3D.tsx) and [AnimatedSection]
    (src/components/3d/AnimatedSection.tsx, together with the
    capability-branching variant of the same component), and proves
    properties of the embedded code.

    Conventions.
    - A JavaScript [number] is an exact rational ([Q]): no rounding, no NaN,
      no infinities.  Comparisons are the boolean comparisons of [JS].
    - React state, refs and motion values of one mounted component are the
      fields of one record; an event handler is a function on that record.
      A functional update [setX(prev => f prev)] is the field update by [f].
    - [Math.random()] reads an oracle [random : nat -> Q] at a cursor and
      advances the cursor, so the handlers stay deterministic functions.
    - Timers are explicit: a pending [setTimeout] is its due time on a
      simulated millisecond clock, fired by [fireTimeouts].
    - Calls that leave the component (parent callbacks, [controls.start],
      [alert], [window.open]) are appended to an effect log. *)

From Stdlib Require Import List Bool Arith ZArith QArith Qround Lia Lqa String
  Ascii.
Import ListNotations.

(** ** JavaScript primitives used by both components *)

Module JS.

Local Open Scope Q_scope.

(** [a < b], [a > b], [a >= b] on numbers. *)
Definition ltb (a b : Q) : bool := negb (Qle_bool b a).
Definition gtb (a b : Q) : bool := ltb b a.
Definition geb (a b : Q) : bool := Qle_bool b a.

(** Truthiness of a number: [0] is falsy. *)
Definition truthy (a : Q) : bool := negb (Qeq_bool a 0).

(** [arr.slice(-n)]: the last [n] elements, the whole array when it is
    shorter. *)
Definition slice_last {A : Type} (n : nat) (arr : list A) : list A :=
  skipn (List.length arr - n) arr.

(** [s1 === s2] on strings. *)
Definition streq (s1 s2 : string) : bool := String.eqb s1 s2.

(** Lookup of a key in an object literal kept as an association list. *)
Fixpoint get {A : Type} (k : string) (o : list (string * A)) : option A :=
  match o with
  | [] => None
  | (k', v) :: o' => if String.eqb k k' then Some v else get k o'
  end.

(** ASCII lower-casing, for a case-insensitive match. *)
Definition lowerAscii (c : ascii) : ascii :=
  let n := nat_of_ascii c in
  if (65 <=? n)%nat && (n <=? 90)%nat then ascii_of_nat (n + 32) else c.

Fixpoint toLowerCase (s : string) : string :=
  match s with
  | EmptyString => EmptyString
  | String c s' => String (lowerAscii c) (toLowerCase s')
  end.

(** [s.includes(pat)]. *)
Fixpoint includes (pat s : string) : bool :=
  String.prefix pat s
  || match s with
     | EmptyString => false
     | String _ s' => includes pat s'
     end.

(** [/p1|p2|.../i.test(s)] for literal alternatives. *)
Definition testAnyIgnoreCase (pats : list string) (s : string) : bool :=
  existsb (fun pat => includes (toLowerCase pat) (toLowerCase s)) pats.

End JS.

(** ** EventCard3D *)

Module EventCard3D.

Local Open Scope Q_scope.

Module Particle.
Record t : Type := mk { id : nat; x : Q; y : Q; vx : Q; vy : Q }.
End Particle.

(** The argument object of a [controls.start] call. *)
Record ControlsAnim : Type := {
  c_scale : list Q;
  c_rotateZ : list Q;
  c_z : list Q;
  c_rotateX : list Q;
  c_duration : Q
}.

Inductive Effect : Type :=
| OnHover
| OnLeave
| ControlsStart (a : ControlsAnim)
| Alert (message : string)
| WindowOpen (url target features : string)
| SetOpenerNull.

(** State of one mounted card. *)
Record Card : Type := {
  isFlipped : bool;
  isFlipping : bool;
  isFocused : bool;
  particles : list Particle.t;
  particleIdRef : nat;
  mouseX : Q;
  mouseY : Q;
  isHovered : bool;          (* prop, owned by the parent layout *)
  timeouts : list Z;         (* due times of pending [setIsFlipping(false)] *)
  random : nat -> Q;         (* oracle behind [Math.random()] *)
  randomIx : nat;
  effects : list Effect
}.

Definition initial (rnd : nat -> Q) : Card := {|
  isFlipped := false; isFlipping := false; isFocused := false;
  particles := []; particleIdRef := 0%nat;
  mouseX := 0; mouseY := 0; isHovered := false;
  timeouts := []; random := rnd; randomIx := 0%nat; effects := []
|}.

(** Field updates. *)
Definition setIsFlipped (b : bool) (s : Card) : Card :=
  {| isFlipped := b; isFlipping := isFlipping s; isFocused := isFocused s;
     particles := particles s; particleIdRef := particleIdRef s;
     mouseX := mouseX s; mouseY := mouseY s; isHovered := isHovered s;
     timeouts := timeouts s; random := random s; randomIx := randomIx s;
     effects := effects s |}.

Definition setIsFlipping (b : bool) (s : Card) : Card :=
  {| isFlipped := isFlipped s; isFlipping := b; isFocused := isFocused s;
     particles := particles s; particleIdRef := particleIdRef s;
     mouseX := mouseX s; mouseY := mouseY s; isHovered := isHovered s;
     timeouts := timeouts s; random := random s; randomIx := randomIx s;
     effects := effects s |}.

Definition setIsFocused (b : bool) (s : Card) : Card :=
  {| isFlipped := isFlipped s; isFlipping := isFlipping s; isFocused := b;
     particles := particles s; particleIdRef := particleIdRef s;
     mouseX := mouseX s; mouseY := mouseY s; isHovered := isHovered s;
     timeouts := timeouts s; random := random s; randomIx := randomIx s;
     effects := effects s |}.

(** [setParticles(prev => f prev)]. *)
Definition setParticles (f : list Particle.t -> list Particle.t) (s : Card)
  : Card :=
  {| isFlipped := isFlipped s; isFlipping := isFlipping s;
     isFocused := isFocused s;
     particles := f (particles s); particleIdRef := particleIdRef s;
     mouseX := mouseX s; mouseY := mouseY s; isHovered := isHovered s;
     timeouts := timeouts s; random := random s; randomIx := randomIx s;
     effects := effects s |}.

Definition setParticleIdRef (n : nat) (s : Card) : Card :=
  {| isFlipped := isFlipped s; isFlipping := isFlipping s;
     isFocused := isFocused s;
     particles := particles s; particleIdRef := n;
     mouseX := mouseX s; mouseY := mouseY s; isHovered := isHovered s;
     timeouts := timeouts s; random := random s; randomIx := randomIx s;
     effects := effects s |}.

Definition setMouse (mx my : Q) (s : Card) : Card :=
  {| isFlipped := isFlipped s; isFlipping := isFlipping s;
     isFocused := isFocused s;
     particles := particles s; particleIdRef := particleIdRef s;
     mouseX := mx; mouseY := my; isHovered := isHovered s;
     timeouts := timeouts s; random := random s; randomIx := randomIx s;
     effects := effects s |}.

Definition setIsHovered (b : bool) (s : Card) : Card :=
  {| isFlipped := isFlipped s; isFlipping := isFlipping s;
     isFocused := isFocused s;
     particles := particles s; particleIdRef := particleIdRef s;
     mouseX := mouseX s; mouseY := mouseY s; isHovered := b;
     timeouts := timeouts s; random := random s; randomIx := randomIx s;
     effects := effects s |}.

Definition setTimeouts (ts : list Z) (s : Card) : Card :=
  {| isFlipped := isFlipped s; isFlipping := isFlipping s;
     isFocused := isFocused s;
     particles := particles s; particleIdRef := particleIdRef s;
     mouseX := mouseX s; mouseY := mouseY s; isHovered := isHovered s;
     timeouts := ts; random := random s; randomIx := randomIx s;
     effects := effects s |}.

Definition setRandomIx (n : nat) (s : Card) : Card :=
  {| isFlipped := isFlipped s; isFlipping := isFlipping s;
     isFocused := isFocused s;
     particles := particles s; particleIdRef := particleIdRef s;
     mouseX := mouseX s; mouseY := mouseY s; isHovered := isHovered s;
     timeouts := timeouts s; random := random s; randomIx := n;
     effects := effects s |}.

Definition emit (e : Effect) (s : Card) : Card :=
  {| isFlipped := isFlipped s; isFlipping := isFlipping s;
     isFocused := isFocused s;
     particles := particles s; particleIdRef := particleIdRef s;
     mouseX := mouseX s; mouseY := mouseY s; isHovered := isHovered s;
     timeouts := timeouts s; random := random s; randomIx := randomIx s;
     effects := effects s ++ [e] |}.

(** *** A state monad for the code that reads refs and the oracle *)

Definition M (A : Type) : Type := Card -> A * Card.
Definition ret {A : Type} (a : A) : M A := fun s => (a, s).
Definition bind {A B : Type} (m : M A) (k : A -> M B) : M B :=
  fun s => let (a, s') := m s in k a s'.

Notation "x <- m ;; k" := (bind m (fun x => k))
  (at level 61, m at next level, right associativity).

(** [Math.random()]. *)
Definition Math_random : M Q :=
  fun s => (random s (randomIx s), setRandomIx (S (randomIx s)) s).

(** [particleIdRef.current++]. *)
Definition nextParticleId : M nat :=
  fun s => (particleIdRef s, setParticleIdRef (S (particleIdRef s)) s).

(** [Array.from({ length: n }, () => make())]. *)
Fixpoint Array_from {A : Type} (n : nat) (make : M A) : M (list A) :=
  match n with
  | O => ret []
  | S n' => a <- make ;; rest <- Array_from n' make ;; ret (a :: rest)
  end.

(** *** Particle integration (lines 81-106) *)

(** The [map] callback of [animateParticles]. *)
Definition advance (particle : Particle.t) : Particle.t :=
  Particle.mk (Particle.id particle)
              (Particle.x particle + Particle.vx particle)
              (Particle.y particle + Particle.vy particle)
              (Particle.vx particle)
              (Particle.vy particle + 0.2).

(** The [filter] callback of [animateParticles]. *)
Definition inBounds (particle : Particle.t) : bool :=
  JS.ltb (Particle.y particle) 600
  && JS.gtb (Particle.x particle) (-50)
  && JS.ltb (Particle.x particle) 450.

Definition animateParticles (prev : list Particle.t) : list Particle.t :=
  filter inBounds (map advance prev).

(** *** Bursts (lines 108-118) *)

Definition ambientParticle : M Particle.t :=
  i <- nextParticleId ;;
  r1 <- Math_random ;;
  r2 <- Math_random ;;
  r3 <- Math_random ;;
  r4 <- Math_random ;;
  ret (Particle.mk i (r1 * 400) (r2 * 300 + 100) ((r3 - 0.5) * 2)
                   (- r4 * 2 - 1)).

Definition createParticleBurst (s : Card) : Card :=
  let (newParticles, s') := Array_from 3 ambientParticle s in
  setParticles (fun prev => JS.slice_last 20 (prev ++ newParticles)) s'.

(** *** Pointer handlers (lines 120-164) *)

Record Rect : Type := {
  left : Q; top : Q; width : Q; height : Q
}.

Record MouseEvent : Type := { clientX : Q; clientY : Q }.

(** [cardRef] is [cardRef.current]: [None] while the element is not
    attached.  The rectangle of a card that receives pointer events has a
    positive width and height; for a degenerate rectangle the quotients
    below are [0] here, where JavaScript gives NaN or an infinity. *)
Definition handleMouseMove (cardRef : option Rect) (e : MouseEvent)
           (s : Card) : Card :=
  match cardRef with
  | None => s
  | Some rect =>
    if isFlipped s then s
    else
      let centerX := left rect + width rect / 2 in
      let centerY := top rect + height rect / 2 in
      let mouseXPercent := (clientX e - centerX) / (width rect / 2) in
      let mouseYPercent := (clientY e - centerY) / (height rect / 2) in
      let s1 := setMouse mouseXPercent mouseYPercent s in
      if isHovered s1 then
        let (r, s2) := Math_random s1 in
        if JS.gtb r 0.95 then createParticleBurst s2 else s2
      else s1
  end.

Definition enterFlourish : ControlsAnim :=
  {| c_scale := [1; 1.1; 1.05]; c_rotateZ := [0; 2; 0]; c_z := [];
     c_rotateX := []; c_duration := 0.6 |}.

Definition leaveReset : ControlsAnim :=
  {| c_scale := [1]; c_rotateZ := [0]; c_z := []; c_rotateX := [];
     c_duration := 0.4 |}.

Definition focusDepth : ControlsAnim :=
  {| c_scale := [1; 1.15; 1.1]; c_rotateZ := []; c_z := [0; 100; 80];
     c_rotateX := [0; -5; -3]; c_duration := 0.8 |}.

Definition blurReset : ControlsAnim :=
  {| c_scale := [1]; c_rotateZ := []; c_z := [0]; c_rotateX := [0];
     c_duration := 0.6 |}.

Definition handleMouseEnter (s : Card) : Card :=
  createParticleBurst (emit (ControlsStart enterFlourish) (emit OnHover s)).

Definition handleMouseLeave (s : Card) : Card :=
  emit (ControlsStart leaveReset)
    (emit OnLeave (setParticles (fun _ => []) (setMouse 0 0 s))).

(** *** Flip on click (lines 166-190) *)

Definition explosionParticle : M Particle.t :=
  i <- nextParticleId ;;
  r1 <- Math_random ;;
  r2 <- Math_random ;;
  r3 <- Math_random ;;
  r4 <- Math_random ;;
  ret (Particle.mk i (200 + (r1 - 0.5) * 100) (300 + (r2 - 0.5) * 100)
                   ((r3 - 0.5) * 8) (- r4 * 6 - 3)).

(** The part of a React click event the handlers use. *)
Record ClickEvent : Type := { propagationStopped : bool }.

Definition stopPropagation (e : ClickEvent) : ClickEvent :=
  {| propagationStopped := true |}.

(** [now] is the time of the click on the simulated clock; the timeout is
    never cancelled. *)
Definition handleCardClick (now : Z) (e : ClickEvent) (s : Card)
  : ClickEvent * Card :=
  let e1 := stopPropagation e in
  let s1 := setIsFlipping true s in
  let s2 := setIsFlipped (negb (isFlipped s)) s1 in
  let s3 := setMouse 0 0 s2 in
  let s4 := setTimeouts (timeouts s3 ++ [(now + 800)%Z]) s3 in
  let (explosionParticles, s5) := Array_from 15 explosionParticle s4 in
  (e1, setParticles (fun prev => prev ++ explosionParticles) s5).

Definition handleFocus (s : Card) : Card :=
  emit (ControlsStart focusDepth) (setIsFocused true s).

Definition handleBlur (s : Card) : Card :=
  emit (ControlsStart blurReset) (setIsFocused false s).

(** *** Register button on the back face (lines 390-412) *)

(** The [if]/[else if] chain that assigns [eventUrl]; [None] is the final
    [else] branch. *)
Definition eventUrlFor (title : string) : option string :=
  if JS.streq title "Brand-o-Vation" then
    Some "https://brand-o-vation.vercel.app/"%string
  else if JS.streq title "Ventura" then
    Some "https://ventura-zeta.vercel.app/"%string
  else if JS.streq title "The Paradox Protocol" then
    Some "https://paradox-protocol-theta.vercel.app/"%string
  else if JS.streq title "Capitalyze" then
    Some "https://capitalyze.vercel.app/"%string
  else None.

(** [newWindow] tells whether [window.open] handed back a window object. *)
Definition registerOnClick (title : string) (newWindow : bool)
           (e : ClickEvent) (s : Card) : ClickEvent * Card :=
  let e1 := stopPropagation e in
  match eventUrlFor title with
  | None =>
    (e1, emit (Alert ("Registration for " ++ title ++ " coming soon!")) s)
  | Some eventUrl =>
    let s1 := emit (WindowOpen eventUrl "_blank" "noopener,noreferrer") s in
    (e1, if newWindow then emit SetOpenerNull s1 else s1)
  end.

(** *** Click dispatch

    The button sits inside the card's root element, whose [onClick] is
    [handleCardClick]: a click on the button runs the button's handler
    first and bubbles to the card unless propagation was stopped. *)

Inductive ClickTarget : Type := CardSurface | RegisterButton.

Definition dispatchClick (title : string) (now : Z) (target : ClickTarget)
           (newWindow : bool) (s : Card) : Card :=
  let e := {| propagationStopped := false |} in
  match target with
  | CardSurface => snd (handleCardClick now e s)
  | RegisterButton =>
    let (e1, s1) := registerOnClick title newWindow e s in
    if propagationStopped e1 then s1 else snd (handleCardClick now e1 s1)
  end.

(** *** Simulated clock and event traces *)

(** Runs every timeout due at [now] or earlier; each callback is
    [setIsFlipping(false)]. *)
Definition fireTimeouts (now : Z) (s : Card) : Card :=
  let due := filter (fun d => (d <=? now)%Z) (timeouts s) in
  let pending := filter (fun d => negb (d <=? now)%Z) (timeouts s) in
  fold_left (fun acc _ => setIsFlipping false acc) due
            (setTimeouts pending s).

Inductive Input : Type :=
| PointerMove (cardRef : option Rect) (e : MouseEvent)
| PointerEnter
| PointerLeave
| Click (target : ClickTarget) (newWindow : bool)
| FocusIn
| FocusOut
| ParentHover (b : bool)   (* the parent re-renders with a new [isHovered] *)
| IntervalTick             (* the 800 ms interval of lines 70-78 *)
| Frame.                   (* one [requestAnimationFrame] callback *)

Definition handle (title : string) (now : Z) (i : Input) (s : Card) : Card :=
  match i with
  | PointerMove cardRef e => handleMouseMove cardRef e s
  | PointerEnter => handleMouseEnter s
  | PointerLeave => handleMouseLeave s
  | Click target newWindow => dispatchClick title now target newWindow s
  | FocusIn => handleFocus s
  | FocusOut => handleBlur s
  | ParentHover b => setIsHovered b s
  | IntervalTick =>
    if isHovered s || isFocused s then createParticleBurst s else s
  | Frame =>
    match particles s with
    | [] => s
    | _ :: _ => setParticles animateParticles s
    end
  end.

(** An input stamped with its time: due timeouts run first. *)
Definition step (title : string) (ti : Z * Input) (s : Card) : Card :=
  handle title (fst ti) (snd ti) (fireTimeouts (fst ti) s).

Definition run (title : string) (trace : list (Z * Input)) (s : Card)
  : Card :=
  fold_left (fun acc ti => step title ti acc) trace s.

(** The value of [isFlipping] observed at time [now]. *)
Definition flippingAt (now : Z) (s : Card) : bool :=
  isFlipping (fireTimeouts now s).

(** *** Pointer-derived transforms (lines 58-67) and what is rendered
        (lines 269-274, 426-444) *)

Definition clamp (lo hi v : Q) : Q :=
  if JS.gtb v hi then hi else if JS.ltb v lo then lo else v.

(** Modelled from the spec: [useTransform] belongs to the animation library
    and is not under src/.  It is the linear interpolation of [v] from the
    input range to the output range, with [v] clamped to the input range. *)
Definition useTransform (v inLo inHi outLo outHi : Q) : Q :=
  let progress := (clamp inLo inHi v - inLo) / (inHi - inLo) in
  outLo + (outHi - outLo) * progress.

Definition rotateX (springY : Q) : Q := useTransform springY (-0.5) 0.5 25 (-25).
Definition rotateY (springX : Q) : Q := useTransform springX (-0.5) 0.5 (-25) 25.
Definition levitateY (springY : Q) : Q :=
  useTransform springY (-0.5) 0.5 (-30) (-60).
Definition levitateZ (springX : Q) : Q := useTransform springX (-0.5) 0.5 20 80.
Definition depthScale (springY : Q) : Q :=
  useTransform springY (-0.5) 0.5 1.02 1.15.

(** What a key of [animate] is given: a number, or a motion value object
    (the source passes [rotateX] and [levitateY] themselves, cast
    [as any]); [current] is the number the object holds at that time. *)
Inductive AnimateValue : Type :=
| Number (n : Q)
| MotionValue (current : Q).

(** The [animate] prop of the inner container. *)
Module Animate.
Record t : Type := mk {
  rotateX : AnimateValue;
  y : AnimateValue;
  z : Q;
  scale : Q
}.
End Animate.

(** [springX], [springY] are the current values of the two springs that
    follow [mouseX] and [mouseY].  For [rotateX] and [y] the source hands
    over the motion value objects, not numbers; what the animation library
    makes of an object in that place is not part of this model. *)
Definition innerAnimate (s : Card) (springX springY : Q) : Animate.t :=
  Animate.mk
    (if negb (isFlipped s) && (isHovered s || isFocused s)
     then MotionValue (rotateX springY) else Number 0)
    (if negb (isFlipped s) && (isHovered s || isFocused s)
     then MotionValue (levitateY springY) else Number 0)
    (if negb (isFlipped s) && isHovered s then 60
     else if negb (isFlipped s) && isFocused s then 100 else 0)
    (if negb (isFlipped s) && isHovered s then 1.08
     else if negb (isFlipped s) && isFocused s then 1.12 else 1).

(** Opacity of the depth shadow; [None] when the element is not rendered. *)
Definition depthShadowOpacity (s : Card) : option Q :=
  if negb (isFlipped s)
  then Some (if isFlipping s || isHovered s then 0 else 0.3)
  else None.

End EventCard3D.

(** ** Types shared by the two versions of AnimatedSection *)

Module Motion.

Local Open Scope Q_scope.

(** A style object literal, keys in source order. *)
Definition Style : Type := list (string * Q).

Module Transition.
Record t : Type := mk {
  duration : Q;
  ease : list Q;
  staggerChildren : option Q;
  delayChildren : option Q
}.
End Transition.

(** A [{ hidden, visible }] pair; [transition] is the [transition] key of
    [visible]. *)
Module Variants.
Record t : Type := mk {
  hidden : Style;
  visible : Style;
  transition : Transition.t
}.
End Variants.

Inductive AnimationType : Type := Slide | Rotate | Scale | Morph | Explode.
Inductive Intensity : Type := Light | Medium | Heavy.
Inductive DevicePerformance : Type := PerfLow | PerfMedium | PerfHigh.

Definition isLow (d : DevicePerformance) : bool :=
  match d with PerfLow => true | _ => false end.
Definition isHigh (d : DevicePerformance) : bool :=
  match d with PerfHigh => true | _ => false end.

(** Props after the defaults of the destructuring pattern are applied; a
    callback prop is recorded by its presence. *)
Module Props.
Record t : Type := mk {
  animationType : AnimationType;
  triggerOffset : Q;
  duration : Q;
  intensity : Intensity;
  className : string;
  enableParticles : bool;
  enable3D : bool;
  onAnimationStart : bool;
  onAnimationComplete : bool
}.
End Props.

(** What the component reads from the browser. *)
Module Env.
Record t : Type := mk {
  windowDefined : bool;
  prefersReducedMotion : bool;
  hardwareConcurrency : option nat;
  deviceMemory : option Q;
  userAgent : string
}.
End Env.

Module Settings.
Record t : Type := mk {
  enable3D : bool;
  enableParticles : bool;
  duration : Q;
  useGPU : bool
}.
End Settings.

(** What the component hands to the outer [motion.div]. *)
Module Rendered.
Record t : Type := mk {
  initial : string;
  variants : Variants.t;
  particleTrail : bool;
  childStagger : Q;
  childDelay : Q
}.
End Rendered.

(** The style of variant [label]. *)
Definition styleOf (label : string) (v : Variants.t) : Style :=
  if JS.streq label "hidden" then Variants.hidden v else Variants.visible v.

(** The style the element is created with.  The animation library renders
    a [motion] element in the variant named by its [initial] prop and leaves
    it there until [controls.start] is called, which the component does
    from an effect, after the first render is committed. *)
Definition firstFrame (r : Rendered.t) : Style :=
  styleOf (Rendered.initial r) (Rendered.variants r).

Definition easeSlide : list Q := [0.25; 0.46; 0.45; 0.94].
Definition easeScale : list Q := [0.175; 0.885; 0.32; 1.275].
Definition easeMorph : list Q := [0.23; 1; 0.32; 1].
Definition easeExplode : list Q := [0.19; 1; 0.22; 1].

End Motion.

(** ** AnimatedSection, shipped version
       (src/components/3d/AnimatedSection.tsx) *)

Module AnimatedSection.

Import Motion.
Local Open Scope string_scope.
Local Open Scope list_scope.
Local Open Scope Q_scope.

(** Line 59. *)
Definition devicePerformance : DevicePerformance := PerfLow.

(** Lines 62-69. *)
Definition optimizedSettings (p : Props.t) : Settings.t :=
  Settings.mk false false (Props.duration p * 0.5) true.

(** Lines 105-200. *)
Definition getAnimationVariants (p : Props.t) (env : Env.t) : Variants.t :=
  if Env.prefersReducedMotion env then
    Variants.mk [("opacity", 0)] [("opacity", 1)]
                (Transition.mk 0.2 [] None None)
  else
    let adjustedDuration := Settings.duration (optimizedSettings p) in
    match Props.animationType p with
    | Slide =>
      Variants.mk [("opacity", 0); ("y", 15)]
                  [("opacity", 1); ("y", 0)]
                  (Transition.mk (adjustedDuration * 0.8) easeSlide
                                 (Some 0.05) (Some 0.05))
    | Rotate =>
      Variants.mk [("opacity", 0); ("scale", 0.95)]
                  [("opacity", 1); ("scale", 1)]
                  (Transition.mk (adjustedDuration * 0.5) easeSlide
                                 (Some 0.03) None)
    | Scale =>
      Variants.mk [("opacity", 0); ("scale", 0.85)]
                  [("opacity", 1); ("scale", 1)]
                  (Transition.mk (adjustedDuration * 0.7) easeScale
                                 (Some 0.05) None)
    | Morph =>
      Variants.mk [("opacity", 0); ("scale", 0.9)]
                  [("opacity", 1); ("scale", 1)]
                  (Transition.mk (adjustedDuration * 0.9) easeMorph
                                 (Some 0.06) None)
    | Explode =>
      Variants.mk [("opacity", 0); ("scale", 1.2)]
                  [("opacity", 1); ("scale", 1)]
                  (Transition.mk (adjustedDuration * 0.6) easeExplode
                                 (Some 0.03) None)
    end.

(** Lines 207-235: no particle trail element is emitted. *)
Definition render (p : Props.t) (env : Env.t) : Rendered.t :=
  Rendered.mk "hidden" (getAnimationVariants p env) false 0.03 0.05.

(** *** The mount effect and the intersection callback (lines 72-102) *)

(** An observer is the closure of its callback: the value of [hasAnimated]
    in the render that created it. *)
Record Observer : Type := {
  sawHasAnimated : bool;
  threshold : Q;
  rootMargin : string
}.

Record State : Type := {
  hasAnimated : bool;
  observer : option Observer;
  depHasAnimated : bool;     (* [hasAnimated] in the effect's dependencies *)
  frameRequests : nat;       (* queued [requestAnimationFrame] callbacks *)
  startCalls : nat;          (* calls of [onAnimationStart] *)
  visibleStarts : nat        (* calls of [controls.start('visible')] *)
}.

Definition unmounted : State :=
  {| hasAnimated := false; observer := None; depHasAnimated := false;
     frameRequests := 0; startCalls := 0; visibleStarts := 0 |}.

Definition setHasAnimated (b : bool) (s : State) : State :=
  {| hasAnimated := b; observer := observer s;
     depHasAnimated := depHasAnimated s; frameRequests := frameRequests s;
     startCalls := startCalls s; visibleStarts := visibleStarts s |}.

Definition setObserver (o : option Observer) (s : State) : State :=
  {| hasAnimated := hasAnimated s; observer := o;
     depHasAnimated := depHasAnimated s; frameRequests := frameRequests s;
     startCalls := startCalls s; visibleStarts := visibleStarts s |}.

Definition setDepHasAnimated (b : bool) (s : State) : State :=
  {| hasAnimated := hasAnimated s; observer := observer s;
     depHasAnimated := b; frameRequests := frameRequests s;
     startCalls := startCalls s; visibleStarts := visibleStarts s |}.

(** [onAnimationStart?.()]. *)
Definition callOnAnimationStart (p : Props.t) (s : State) : State :=
  if Props.onAnimationStart p then
    {| hasAnimated := hasAnimated s; observer := observer s;
       depHasAnimated := depHasAnimated s; frameRequests := frameRequests s;
       startCalls := S (startCalls s); visibleStarts := visibleStarts s |}
  else s.

(** [requestAnimationFrame(() => controls.start('visible'))]. *)
Definition requestVisibleFrame (s : State) : State :=
  {| hasAnimated := hasAnimated s; observer := observer s;
     depHasAnimated := depHasAnimated s;
     frameRequests := S (frameRequests s);
     startCalls := startCalls s; visibleStarts := visibleStarts s |}.

(** [controls.start('visible')]. *)
Definition controlsStartVisible (s : State) : State :=
  {| hasAnimated := hasAnimated s; observer := observer s;
     depHasAnimated := depHasAnimated s; frameRequests := frameRequests s;
     startCalls := startCalls s; visibleStarts := S (visibleStarts s) |}.

(** The body of the [forEach] of the observer callback, for one entry;
    [o] holds the [hasAnimated] the callback closed over. *)
Definition onEntry (p : Props.t) (o : Observer) (isIntersecting : bool)
           (s : State) : State :=
  if isIntersecting && negb (sawHasAnimated o) then
    requestVisibleFrame (callOnAnimationStart p (setHasAnimated true s))
  else s.

(** One invocation of the observer callback with its [entries]. *)
Definition observerCallback (p : Props.t) (o : Observer)
           (entries : list bool) (s : State) : State :=
  fold_left (fun acc isIntersecting => onEntry p o isIntersecting acc)
            entries s.

(** The effect body; [sectionRef] tells whether [sectionRef.current] is
    set. *)
Definition effect (env : Env.t) (sectionRef : bool) (s : State) : State :=
  let s1 := setDepHasAnimated (hasAnimated s) s in
  if negb sectionRef || Env.prefersReducedMotion env then
    controlsStartVisible s1
  else
    setObserver (Some {| sawHasAnimated := hasAnimated s;
                         threshold := 0.01;
                         rootMargin := "50px 0px 0px 0px" |}) s1.

(** The effect's cleanup, [observer.disconnect()]. *)
Definition cleanup (s : State) : State := setObserver None s.

Definition mount (env : Env.t) : State := effect env true unmounted.

Inductive Input : Type :=
| Intersections (entries : list bool)  (* one callback invocation *)
| Rerender (otherDepsChanged : bool)   (* React commits a new render *)
| AnimationFrame.                      (* queued frame callbacks run *)

Definition step (p : Props.t) (env : Env.t) (i : Input) (s : State)
  : State :=
  match i with
  | Intersections entries =>
    match observer s with
    | Some o => observerCallback p o entries s
    | None => s
    end
  | Rerender otherDepsChanged =>
    if otherDepsChanged
       || negb (Bool.eqb (hasAnimated s) (depHasAnimated s))
    then effect env true (cleanup s)
    else s
  | AnimationFrame =>
    {| hasAnimated := hasAnimated s; observer := observer s;
       depHasAnimated := depHasAnimated s; frameRequests := 0;
       startCalls := startCalls s;
       visibleStarts := (visibleStarts s + frameRequests s)%nat |}
  end.

Definition run (p : Props.t) (env : Env.t) (inputs : list Input)
           (s : State) : State :=
  fold_left (fun acc i => step p env i acc) inputs s.

End AnimatedSection.

(** ** AnimatedSection, capability-branching version (src/unnamed/part_001) *)

Module AnimatedSectionAlt.

Import Motion.
Local Open Scope string_scope.
Local Open Scope list_scope.
Local Open Scope Q_scope.

Definition mobilePatterns : list string :=
  ["Android"; "webOS"; "iPhone"; "iPad"; "iPod"; "BlackBerry"; "IEMobile";
   "Opera Mini"].

(** Lines 18-39. *)
Definition getDevicePerformance (env : Env.t) : DevicePerformance :=
  if negb (Env.windowDefined env) then PerfMedium
  else if Env.prefersReducedMotion env then PerfLow
  else
    let cores :=
      match Env.hardwareConcurrency env with
      | Some (S n) => S n
      | _ => 4%nat
      end in
    let memory := Env.deviceMemory env in
    let isMobile := JS.testAnyIgnoreCase mobilePatterns (Env.userAgent env) in
    if match memory with
       | Some m => JS.truthy m && JS.ltb m 4
       | None => false
       end then PerfLow
    else if isMobile && (cores <? 4)%nat then PerfLow
    else if (8 <=? cores)%nat
            && match memory with
               | Some m => negb (JS.truthy m) || JS.geb m 8
               | None => true
               end then PerfHigh
    else PerfMedium.

(** Line 59. *)
Definition devicePerformance (env : Env.t) : DevicePerformance :=
  getDevicePerformance env.

(** Lines 62-73. *)
Definition optimizedSettings (p : Props.t) (env : Env.t) : Settings.t :=
  let shouldEnable3D :=
    Props.enable3D p && negb (isLow (devicePerformance env)) in
  let shouldEnableParticles :=
    Props.enableParticles p && isHigh (devicePerformance env) in
  let adjustedDuration :=
    if isLow (devicePerformance env) then Props.duration p * 0.6
    else Props.duration p in
  Settings.mk shouldEnable3D shouldEnableParticles adjustedDuration
              (negb (isLow (devicePerformance env))).

(** [...(c && { k: v })]. *)
Definition spreadIf (c : bool) (o : Style) : Style := if c then o else [].

(** Lines 109-236. *)
Definition getAnimationVariants (p : Props.t) (env : Env.t) : Variants.t :=
  if Env.prefersReducedMotion env then
    Variants.mk [("opacity", 0)] [("opacity", 1)]
                (Transition.mk 0.3 [] None None)
  else
    let low := isLow (devicePerformance env) in
    let intensityMultiplier :=
      match Props.intensity p with
      | Light => 0.5
      | Medium => 1
      | Heavy => if low then 1 else 2
      end in
    let use3D := Settings.enable3D (optimizedSettings p env) in
    let adjustedDuration := Settings.duration (optimizedSettings p env) in
    match Props.animationType p with
    | Slide =>
      Variants.mk
        [("opacity", 0); ("y", if low then 20 else 30)]
        [("opacity", 1); ("y", 0)]
        (Transition.mk (adjustedDuration * 0.8) easeSlide
                       (Some (if low then 0.08 else 0.15)) (Some 0.1))
    | Rotate =>
      Variants.mk
        ([("opacity", 0);
          ("rotateX", if use3D then -10 * intensityMultiplier else 0);
          ("rotateY", if use3D then 5 * intensityMultiplier else 0);
          ("scale", 0.95)]
           ++ spreadIf use3D [("z", -20)])
        ([("opacity", 1); ("rotateX", 0); ("rotateY", 0); ("scale", 1)]
           ++ spreadIf use3D [("z", 0)])
        (Transition.mk (adjustedDuration * 0.5) easeSlide (Some 0.05) None)
    | Scale =>
      Variants.mk
        ([("opacity", 0);
          ("scale", if low then 0.8 else 0.1 * intensityMultiplier);
          ("rotateZ", if use3D then (if low then 45 else 180) else 0)]
           ++ spreadIf use3D [("z", if low then -50 else -300)])
        ([("opacity", 1); ("scale", 1); ("rotateZ", 0)]
           ++ spreadIf use3D [("z", 0)])
        (Transition.mk (adjustedDuration * 1.3) easeScale (Some 0.08) None)
    | Morph =>
      Variants.mk
        ([("opacity", 0);
          ("scale", 0.3);
          ("rotateY",
           if use3D then (if low then 90 else 270) * intensityMultiplier
           else 0);
          ("rotateX", if use3D && negb low then 45 else 0);
          ("skewX", if low then 10 else 25)]
           ++ spreadIf (use3D && negb low) [("skewY", 15)]
           ++ spreadIf use3D [("z", if low then -50 else -150)])
        ([("opacity", 1); ("scale", 1); ("rotateY", 0); ("rotateX", 0);
          ("skewX", 0); ("skewY", 0)]
           ++ spreadIf use3D [("z", 0)])
        (Transition.mk (adjustedDuration * 1.8) easeMorph (Some 0.12) None)
    | Explode =>
      Variants.mk
        ([("opacity", 0);
          ("scale", if low then 1.5 else 3 * intensityMultiplier);
          ("rotate", if use3D then (if low then 180 else 720) else 0)]
           ++ spreadIf (use3D && negb low) [("rotateX", 180); ("rotateY", 180)]
           ++ spreadIf use3D [("z", if low then 100 else 500)])
        ([("opacity", 1); ("scale", 1); ("rotate", 0); ("rotateX", 0);
          ("rotateY", 0)]
           ++ spreadIf use3D [("z", 0)])
        (Transition.mk (adjustedDuration * 1.1) easeExplode (Some 0.05) None)
    end.

(** Lines 243-283: the particle trail is emitted when
    [optimizedSettings.enableParticles] holds. *)
Definition render (p : Props.t) (env : Env.t) : Rendered.t :=
  Rendered.mk "hidden" (getAnimationVariants p env)
              (Settings.enableParticles (optimizedSettings p env))
              (if isLow (devicePerformance env) then 0.05 else 0.1)
              (if isLow (devicePerformance env) then 0.1 else 0.2).

End AnimatedSectionAlt.

(** ** Specification-side notions for the card *)

Module CardSpec.

Import EventCard3D.

(** [s'] differs from [s] at most in the two counters. *)
Definition sameButCounters (s s' : Card) : Prop :=
  isFlipped s' = isFlipped s /\ isFlipping s' = isFlipping s
  /\ isFocused s' = isFocused s /\ particles s' = particles s
  /\ mouseX s' = mouseX s /\ mouseY s' = mouseY s
  /\ isHovered s' = isHovered s /\ timeouts s' = timeouts s
  /\ random s' = random s /\ effects s' = effects s.

(** What integration does to one particle, in the words of the property:
    position moves by the velocity, gravity is added to [vy], and the moved
    particle stays exactly when it is inside the visible bounds. *)
Definition moved (p : Particle.t) : Particle.t :=
  Particle.mk (Particle.id p)
              (Particle.x p + Particle.vx p) (Particle.y p + Particle.vy p)
              (Particle.vx p) (Particle.vy p + 0.2).

Definition visible (q : Particle.t) : Prop :=
  (Particle.y q < 600 /\ -50 < Particle.x q /\ Particle.x q < 450)%Q.

Inductive Integrates : list Particle.t -> list Particle.t -> Prop :=
| Integrates_nil : Integrates [] []
| Integrates_keep p ps qs :
    visible (moved p) -> Integrates ps qs ->
    Integrates (p :: ps) (moved p :: qs)
| Integrates_drop p ps qs :
    ~ visible (moved p) -> Integrates ps qs -> Integrates (p :: ps) qs.

(** [s'] has the flip state and the pending timeouts of [s]. *)
Definition sameFlip (s s' : Card) : Prop :=
  isFlipped s' = isFlipped s /\ isFlipping s' = isFlipping s
  /\ timeouts s' = timeouts s.

(** Inputs that reach [handleCardClick]. *)
Definition isCardClick (i : Input) : bool :=
  match i with
  | Click CardSurface _ => true
  | _ => false
  end.

(** The static title-to-site table of the Register button. *)
Definition registrationSites : list (string * string) :=
  [("Brand-o-Vation", "https://brand-o-vation.vercel.app/");
   ("Ventura", "https://ventura-zeta.vercel.app/");
   ("The Paradox Protocol", "https://paradox-protocol-theta.vercel.app/");
   ("Capitalyze", "https://capitalyze.vercel.app/")]%string.

(** The pointer-driven part of the card's presentation is active. *)
Definition tiltActive (s : Card) : bool :=
  negb (isFlipped s) && (isHovered s || isFocused s).

(** [flipping] is set and every pending timeout is due at [limit] or later:
    nothing fires before [limit]. *)
Definition lockedUntil (limit : Z) (s : Card) : Prop :=
  isFlipping s = true /\ forall d, In d (timeouts s) -> (limit <= d)%Z.

End CardSpec.

(** ** Specification-side notions for the animated section *)

Module SectionSpec.

Import Motion.
Local Open Scope string_scope.
Local Open Scope list_scope.
Local Open Scope Q_scope.

(** Equality of what two style objects say: same keys, equal numbers. *)
Fixpoint sameStyle (a b : Style) : bool :=
  match a, b with
  | [], [] => true
  | (k, v) :: a', (k', v') :: b' =>
    String.eqb k k' && Qeq_bool v v' && sameStyle a' b'
  | _, _ => false
  end.

Definition sameVariants (a b : Variants.t) : bool :=
  sameStyle (Variants.hidden a) (Variants.hidden b)
  && sameStyle (Variants.visible a) (Variants.visible b)
  && Qeq_bool (Transition.duration (Variants.transition a))
              (Transition.duration (Variants.transition b)).

(** Sample props and environments. *)
Definition sampleProps (type : AnimationType) (i : Intensity)
           (enable3D enableParticles : bool) : Props.t :=
  Props.mk type 0.1 1 i EmptyString enableParticles enable3D true true.

Definition sampleEnv (cores : nat) (memory : option Q) (userAgent : string)
  : Env.t :=
  Env.mk true false (Some cores) memory userAgent.

Definition desktopAgent : string :=
  "Mozilla/5.0 (X11; Linux x86_64) Gecko/20100101 Firefox/128.0".

Definition phoneAgent : string :=
  "Mozilla/5.0 (Linux; Android 13; Pixel 7) Mobile Safari/537.36".

Definition reducedMotionEnv : Env.t :=
  Env.mk true true (Some 8%nat) (Some 8) desktopAgent.

(** One scroll observation in a settled schedule: the callback gets a
    single entry, React commits the resulting render, and the next frame
    runs. *)
Definition settledRound (p : Props.t) (env : Env.t) (isIntersecting : bool)
           (s : AnimatedSection.State) : AnimatedSection.State :=
  AnimatedSection.run p env
    [AnimatedSection.Intersections [isIntersecting];
     AnimatedSection.Rerender false;
     AnimatedSection.AnimationFrame] s.

(** The observer the effect creates, with the [hasAnimated] it closed
    over. *)
Definition liveObserver (saw : bool) : AnimatedSection.Observer :=
  {| AnimatedSection.sawHasAnimated := saw;
     AnimatedSection.threshold := 0.01;
     AnimatedSection.rootMargin := "50px 0px 0px 0px" |}.

(** Mounted and not yet triggered. *)
Definition waiting : AnimatedSection.State :=
  {| AnimatedSection.hasAnimated := false;
     AnimatedSection.observer := Some (liveObserver false);
     AnimatedSection.depHasAnimated := false;
     AnimatedSection.frameRequests := 0;
     AnimatedSection.startCalls := 0;
     AnimatedSection.visibleStarts := 0 |}.

(** Triggered once, render committed, frame run. *)
Definition triggered (p : Props.t) : AnimatedSection.State :=
  {| AnimatedSection.hasAnimated := true;
     AnimatedSection.observer := Some (liveObserver true);
     AnimatedSection.depHasAnimated := true;
     AnimatedSection.frameRequests := 0;
     AnimatedSection.startCalls :=
       if Props.onAnimationStart p then 1 else 0;
     AnimatedSection.visibleStarts := 1 |}.

End SectionSpec.

(** ** ParticleTrail (AnimatedSection.tsx lines 239-304, the same component
       in src/unnamed/part_001 lines 287-352) *)

Module ParticleTrail.

Import Motion.
Local Open Scope Q_scope.

(** [Math.ceil]. *)
Definition Math_ceil (a : Q) : Q := inject_Z (Qceiling a).

Definition baseCount (intensity : Intensity) : Q :=
  match intensity with
  | Light => 5
  | Medium => 10
  | Heavy => 20
  end.

Definition particleCount (intensity : Intensity)
           (devicePerformance : DevicePerformance) : Q :=
  match devicePerformance with
  | PerfLow => Math_ceil (baseCount intensity * 0.3)
  | PerfMedium => Math_ceil (baseCount intensity * 0.6)
  | PerfHigh => baseCount intensity
  end.

(** The number of particles of the trail that part_001 renders (lines
    260-268): [None] when the trail element is not emitted. *)
Definition renderedTrail (p : Props.t) (env : Env.t) : option Q :=
  if Settings.enableParticles (AnimatedSectionAlt.optimizedSettings p env)
  then Some (particleCount (Props.intensity p)
                           (AnimatedSectionAlt.devicePerformance env))
  else None.

End ParticleTrail.

(** ** Header (src/unnamed/part_000) *)

Module Header.

Local Open Scope Q_scope.

Inductive Effect : Type :=
| ScrollEventsIntoView.   (* [scrollIntoView({ behavior: "smooth" })] *)

Record State : Type := {
  scrolled : bool;
  mobileMenuOpen : bool;
  effects : list Effect
}.

Definition initial : State :=
  {| scrolled := false; mobileMenuOpen := false; effects := [] |}.

Definition setScrolled (b : bool) (s : State) : State :=
  {| scrolled := b; mobileMenuOpen := mobileMenuOpen s;
     effects := effects s |}.

Definition setMobileMenuOpen (b : bool) (s : State) : State :=
  {| scrolled := scrolled s; mobileMenuOpen := b; effects := effects s |}.

(** [document.getElementById("events")?.scrollIntoView(...)]; [found] tells
    whether the element exists. *)
Definition scrollToEvents (found : bool) (s : State) : State :=
  if found then
    {| scrolled := scrolled s; mobileMenuOpen := mobileMenuOpen s;
       effects := (effects s ++ [ScrollEventsIntoView])%list |}
  else s.

(** Lines 10-12. *)
Definition handleScroll (scrollY : Q) (s : State) : State :=
  setScrolled (JS.gtb scrollY 50) s.

Inductive Input : Type :=
| Scroll (scrollY : Q)
| MenuButtonClick                       (* lines 57-62 *)
| MobileLinkClick                       (* lines 68-77 *)
| DesktopRegisterClick (found : bool)   (* lines 48-53 *)
| MobileRegisterClick (found : bool).   (* lines 78-86 *)

(** The mobile navigation is rendered only while the menu is open (line
    66), so its links and button receive no click while it is closed. *)
Definition handle (i : Input) (s : State) : State :=
  match i with
  | Scroll scrollY => handleScroll scrollY s
  | MenuButtonClick => setMobileMenuOpen (negb (mobileMenuOpen s)) s
  | MobileLinkClick =>
    if mobileMenuOpen s then setMobileMenuOpen false s else s
  | DesktopRegisterClick found => scrollToEvents found s
  | MobileRegisterClick found =>
    if mobileMenuOpen s
    then scrollToEvents found (setMobileMenuOpen false s)
    else s
  end.

Definition run (inputs : list Input) (s : State) : State :=
  fold_left (fun acc i => handle i acc) inputs s.

(** The class the header gets for its background (line 26). *)
Definition background (s : State) : string :=
  if scrolled s then "bg-background/95 backdrop-blur-lg"%string
  else "bg-transparent"%string.

End Header.

(** ** Further specification-side notions *)

Module CardLaws.

Import EventCard3D CardSpec.
Local Open Scope Q_scope.

(** [Math.random()] returns a number in [0, 1). *)
Definition oracleInUnit (rnd : nat -> Q) : Prop :=
  forall n, 0 <= rnd n /\ rnd n < 1.

(** Where an ambient particle starts: inside the front face, moving up.
    The intervals are closed, so they also contain the values a rounding
    number type puts on an endpoint. *)
Definition ambientRange (q : Particle.t) : Prop :=
  (0 <= Particle.x q /\ Particle.x q <= 400)
  /\ (100 <= Particle.y q /\ Particle.y q <= 400)
  /\ (-1 <= Particle.vx q /\ Particle.vx q <= 1)
  /\ (-3 <= Particle.vy q /\ Particle.vy q <= -1).

(** Where an explosion particle starts: around the centre, moving up. *)
Definition explosionRange (q : Particle.t) : Prop :=
  (150 <= Particle.x q /\ Particle.x q <= 250)
  /\ (250 <= Particle.y q /\ Particle.y q <= 350)
  /\ (-4 <= Particle.vx q /\ Particle.vx q <= 4)
  /\ (-9 <= Particle.vy q /\ Particle.vy q <= -3).

(** [ids] is strictly increasing, with every element in [lo, hi). *)
Fixpoint idsWithin (lo hi : nat) (ids : list nat) : Prop :=
  match ids with
  | [] => (lo <= hi)%nat
  | i :: rest => (lo <= i)%nat /\ idsWithin (S i) hi rest
  end.

Definition particleIds (s : Card) : list nat :=
  map Particle.id (particles s).

(** Live particles carry increasing ids, all below the counter. *)
Definition idsOrdered (s : Card) : Prop :=
  idsWithin 0 (particleIdRef s) (particleIds s).

(** Every live particle is inside the visible bounds, provided the oracle
    behaves like [Math.random]. *)
Definition allVisible (s : Card) : Prop :=
  oracleInUnit (random s) -> Forall visible (particles s).

(** [s0] has the particle list, the id counter and the oracle of [s]. *)
Definition sameParticleView (s s0 : Card) : Prop :=
  particles s0 = particles s /\ particleIdRef s0 = particleIdRef s
  /\ random s0 = random s.

(** A particle factory that takes its id from the counter and advances
    the counter by one. *)
Definition takesFreshId (make : M Particle.t) : Prop :=
  forall s,
    Particle.id (fst (make s)) = particleIdRef s
    /\ particleIdRef (snd (make s)) = S (particleIdRef s).

(** Number of clicks on the card surface in a trace. *)
Definition cardClicks (trace : list (Z * Input)) : nat :=
  List.length (filter (fun ti => isCardClick (snd ti)) trace).

Definition isFrame (i : Input) : bool :=
  match i with
  | Frame => true
  | _ => false
  end.

(** [n] integration steps. *)
Fixpoint frames (n : nat) (ps : list Particle.t) : list Particle.t :=
  match n with
  | O => ps
  | S n' => frames n' (animateParticles ps)
  end.

Definition Qpos_part (a : Q) : Q := if Qle_bool 0 a then a else 0.

(** A number of steps after which gravity has taken the particle below the
    lower bound; the count includes one step of margin. *)
Definition lifetime (p : Particle.t) : nat :=
  S (S (Z.to_nat (Qceiling (10 * (Qpos_part (- Particle.vy p)
                                  + Qpos_part (600 - Particle.y p)))))).

(** Height and vertical speed of moderate size: within 1000 of zero, a box
    much larger than the card and the speeds it spawns. *)
Definition moderate (p : Particle.t) : Prop :=
  (-1000 <= Particle.y p /\ Particle.y p <= 1000)
  /\ (-1000 <= Particle.vy p /\ Particle.vy p <= 1000).

Definition framesToClear (ps : list Particle.t) : nat :=
  fold_right Nat.max 0%nat (map lifetime ps).

(** The flip lock can be on only while a reset is pending, and every
    pending reset is due by [limit]. *)
Definition resetsPendingBy (limit : Z) (s : Card) : Prop :=
  (forall d, In d (timeouts s) -> (d <= limit)%Z)
  /\ (isFlipping s = true -> timeouts s <> []).

End CardLaws.

Module SectionLaws.

Import Motion.
Local Open Scope string_scope.
Local Open Scope Q_scope.

(** The value a key has on an element that is not transformed. *)
Definition neutral (key : string) : Q :=
  if String.eqb key "opacity" || String.eqb key "scale" then 1 else 0.

Definition untransformed (style : Style) : Prop :=
  Forall (fun kv => snd kv == neutral (fst kv)) style.

(** The same props with another [enableParticles]. *)
Definition withEnableParticles (b : bool) (p : Props.t) : Props.t :=
  Props.mk (Props.animationType p) (Props.triggerOffset p)
           (Props.duration p) (Props.intensity p) (Props.className p)
           b (Props.enable3D p) (Props.onAnimationStart p)
           (Props.onAnimationComplete p).

(** [navigator.hardwareConcurrency || 4]. *)
Definition effectiveCores (env : Env.t) : nat :=
  match Env.hardwareConcurrency env with
  | Some (S n) => S n
  | _ => 4%nat
  end.

(** [!memory || memory >= 8]. *)
Definition memoryAmple (env : Env.t) : bool :=
  match Env.deviceMemory env with
  | Some m => negb (JS.truthy m) || JS.geb m 8
  | None => true
  end.

(** The value of a key is absent or zero. *)
Definition absentOrZero (key : string) (style : Style) : Prop :=
  match JS.get key style with
  | Some v => v == 0
  | None => True
  end.

(** Nothing has started before the latch is set, and with a start callback
    every started or queued transition is matched by one callback call. *)
Definition paired (p : Props.t) (s : AnimatedSection.State) : Prop :=
  (AnimatedSection.hasAnimated s = false ->
   AnimatedSection.visibleStarts s = 0%nat
   /\ AnimatedSection.startCalls s = 0%nat
   /\ AnimatedSection.frameRequests s = 0%nat)
  /\ (Props.onAnimationStart p = true ->
      AnimatedSection.startCalls s
      = (AnimatedSection.visibleStarts s
         + AnimatedSection.frameRequests s)%nat).

(** All entries of every delivery are non-intersecting. *)
Definition noIntersection (i : AnimatedSection.Input) : bool :=
  match i with
  | AnimatedSection.Intersections entries => negb (existsb (fun b => b) entries)
  | _ => true
  end.

End SectionLaws.

Module HeaderLaws.

Import Header.

(** The position of the last scroll event of a trace, if any. *)
Fixpoint lastScroll (inputs : list Input) : option Q :=
  match inputs with
  | [] => None
  | i :: rest =>
    match lastScroll rest with
    | Some y => Some y
    | None => match i with Scroll y => Some y | _ => None end
    end
  end.

Definition isMenuButtonClick (i : Input) : bool :=
  match i with
  | MenuButtonClick => true
  | _ => false
  end.

Definition isMobileNavigation (i : Input) : bool :=
  match i with
  | MobileLinkClick | MobileRegisterClick _ => true
  | _ => false
  end.

End HeaderLaws.

(** * Properties *)

(** ** Numbers and arrays *)

Lemma ltb_lt (a b : Q) : JS.ltb a b = true <-> (a < b)%Q.
Proof.
  unfold JS.ltb. rewrite negb_true_iff. split; intro H.
  - apply Qnot_le_lt. intro Hle. apply Qle_bool_iff in Hle. congruence.
  - destruct (Qle_bool b a) eqn:E; [|reflexivity].
    apply Qle_bool_iff in E. exfalso. exact (Qlt_not_le _ _ H E).
Qed.

Lemma ltb_ge (a b : Q) : JS.ltb a b = false <-> (b <= a)%Q.
Proof.
  unfold JS.ltb. rewrite negb_false_iff. apply Qle_bool_iff.
Qed.

Lemma slice_last_length {A : Type} (n : nat) (arr : list A) :
  List.length (JS.slice_last n arr) = Nat.min n (List.length arr).
Proof.
  unfold JS.slice_last. rewrite length_skipn. lia.
Qed.

Lemma slice_last_suffix {A : Type} (n : nat) (arr : list A) :
  arr = firstn (List.length arr - n) arr ++ JS.slice_last n arr.
Proof.
  unfold JS.slice_last. symmetry. apply firstn_skipn.
Qed.

(** ** EventCard3D: particles *)

Module CardFacts.

Import EventCard3D CardSpec.

Lemma sameButCounters_refl s : sameButCounters s s.
Proof. repeat split. Qed.

Lemma sameButCounters_trans s1 s2 s3 :
  sameButCounters s1 s2 -> sameButCounters s2 s3 -> sameButCounters s1 s3.
Proof.
  unfold sameButCounters. intros H12 H23.
  decompose [and] H12. decompose [and] H23.
  repeat split; congruence.
Qed.

Lemma ambientParticle_frame s :
  sameButCounters s (snd (ambientParticle s)).
Proof. repeat split. Qed.

Lemma explosionParticle_frame s :
  sameButCounters s (snd (explosionParticle s)).
Proof. repeat split. Qed.

Lemma Array_from_frame {A : Type} (make : M A) :
  (forall s, sameButCounters s (snd (make s))) ->
  forall n s, sameButCounters s (snd (Array_from n make s)).
Proof.
  intros Hmake n. induction n as [|n IH]; intro s; simpl.
  - apply sameButCounters_refl.
  - unfold bind. specialize (Hmake s). destruct (make s) as [a s1].
    specialize (IH s1). destruct (Array_from n make s1) as [rest s2].
    simpl in *. eapply sameButCounters_trans; eassumption.
Qed.

Lemma Array_from_length {A : Type} (make : M A) n s :
  List.length (fst (Array_from n make s)) = n.
Proof.
  revert s. induction n as [|n IH]; intro s; simpl; [reflexivity|].
  unfold bind. destruct (make s) as [a s1].
  specialize (IH s1). destruct (Array_from n make s1) as [rest s2].
  simpl in *. now rewrite IH.
Qed.

Lemma inBounds_visible q : inBounds q = true <-> visible q.
Proof.
  unfold inBounds, visible, JS.gtb.
  rewrite !andb_true_iff, !ltb_lt. tauto.
Qed.

Lemma advance_moved p : advance p = moved p.
Proof. reflexivity. Qed.

(** A burst leaves at most 20 particles. *)
Lemma createParticleBurst_cap s :
  (List.length (particles (createParticleBurst s)) <= 20)%nat.
Proof.
  unfold createParticleBurst.
  destruct (Array_from 3 ambientParticle s) as [newParticles s'].
  simpl. rewrite slice_last_length. lia.
Qed.

(** X2: a burst appends three particles and keeps the newest 20: whatever is
    dropped is a prefix of the old list, the oldest particles. *)
Lemma createParticleBurst_drops_oldest s :
  exists dropped fresh,
    List.length fresh = 3%nat
    /\ particles s ++ fresh = dropped ++ particles (createParticleBurst s)
    /\ List.length dropped
       = (List.length (particles s) + 3 - 20)%nat.
Proof.
  unfold createParticleBurst.
  pose proof (Array_from_length ambientParticle 3 s) as Hlen.
  pose proof (Array_from_frame ambientParticle ambientParticle_frame 3 s)
    as Hfr.
  destruct (Array_from 3 ambientParticle s) as [newParticles s'].
  simpl in *. destruct Hfr as (_ & _ & _ & Hp & _). rewrite Hp.
  exists (firstn (List.length (particles s ++ newParticles) - 20)
                 (particles s ++ newParticles)), newParticles.
  split; [exact Hlen|]. split.
  - apply slice_last_suffix.
  - rewrite length_firstn, length_app, Hlen. lia.
Qed.

(** The card's click handler appends 15 particles, without a limit. *)
Lemma handleCardClick_particles now e s :
  List.length (particles (snd (handleCardClick now e s)))
  = (List.length (particles s) + 15)%nat.
Proof.
  unfold handleCardClick.
  set (s4 := setTimeouts _ _).
  pose proof (Array_from_length explosionParticle 15 s4) as Hlen.
  pose proof (Array_from_frame explosionParticle explosionParticle_frame
                               15 s4) as Hfr.
  destruct (Array_from 15 explosionParticle s4) as [ex s5].
  simpl in *. destruct Hfr as (_ & _ & _ & Hp & _).
  rewrite Hp, length_app, Hlen. reflexivity.
Qed.

(** *** Timeouts *)

Lemma fold_setIsFlipping_false (l : list Z) s :
  fold_left (fun acc _ => setIsFlipping false acc) l s
  = match l with [] => s | _ :: _ => setIsFlipping false s end.
Proof.
  revert s. induction l as [|d l IH]; intro s; simpl; [reflexivity|].
  rewrite IH. destruct l; reflexivity.
Qed.

Lemma fireTimeouts_fields now s :
  let s' := fireTimeouts now s in
  isFlipped s' = isFlipped s
  /\ particles s' = particles s
  /\ timeouts s' = filter (fun d => negb (d <=? now)%Z) (timeouts s)
  /\ isFlipping s'
     = (if existsb (fun d => (d <=? now)%Z) (timeouts s) then false
        else isFlipping s).
Proof.
  unfold fireTimeouts. rewrite fold_setIsFlipping_false.
  destruct (filter (fun d => (d <=? now)%Z) (timeouts s)) as [|d due] eqn:E.
  - repeat split. simpl.
    destruct (existsb (fun d => (d <=? now)%Z) (timeouts s)) eqn:Ex;
      [|reflexivity].
    apply existsb_exists in Ex. destruct Ex as (d & Hin & Hd).
    assert (In d []) as [] by (rewrite <- E; apply filter_In; auto).
  - repeat split. simpl.
    assert (In d (filter (fun d => (d <=? now)%Z) (timeouts s))) as Hin
        by (rewrite E; left; reflexivity).
    apply filter_In in Hin. destruct Hin as [Hin Hd].
    assert (existsb (fun d => (d <=? now)%Z) (timeouts s) = true) as ->
        by (apply existsb_exists; eauto).
    reflexivity.
Qed.

(** *** What each handler leaves alone *)

Lemma createParticleBurst_sameFlip s : sameFlip s (createParticleBurst s).
Proof.
  unfold createParticleBurst.
  pose proof (Array_from_frame ambientParticle ambientParticle_frame 3 s)
    as Hfr.
  destruct (Array_from 3 ambientParticle s) as [newParticles s'].
  simpl in Hfr. unfold sameButCounters in Hfr. decompose [and] Hfr.
  repeat split; simpl; assumption.
Qed.

Lemma handleMouseMove_sameFlip cardRef e s :
  sameFlip s (handleMouseMove cardRef e s).
Proof.
  unfold handleMouseMove.
  destruct cardRef as [rect|]; [|repeat split].
  destruct (isFlipped s) eqn:Ef; [repeat split|].
  set (s1 := setMouse _ _ s).
  assert (sameFlip s s1) as H1 by (repeat split).
  destruct (isHovered s1); [|exact H1].
  unfold Math_random.
  destruct (JS.gtb _ _).
  - destruct (createParticleBurst_sameFlip (setRandomIx (S (randomIx s1)) s1))
      as (Ha & Hb & Hc).
    repeat split; simpl in *; congruence.
  - repeat split.
Qed.

Lemma registerOnClick_stops title newWindow e s :
  propagationStopped (fst (registerOnClick title newWindow e s)) = true.
Proof.
  unfold registerOnClick. destruct (eventUrlFor title); reflexivity.
Qed.

Lemma registerOnClick_frame title newWindow e s :
  let s' := snd (registerOnClick title newWindow e s) in
  sameFlip s s' /\ particles s' = particles s
  /\ particleIdRef s' = particleIdRef s /\ randomIx s' = randomIx s
  /\ mouseX s' = mouseX s /\ mouseY s' = mouseY s
  /\ isFocused s' = isFocused s /\ isHovered s' = isHovered s.
Proof.
  unfold registerOnClick.
  destruct (eventUrlFor title); [destruct newWindow|]; repeat split.
Qed.

Lemma dispatchClick_register title now newWindow s :
  dispatchClick title now RegisterButton newWindow s
  = snd (registerOnClick title newWindow {| propagationStopped := false |} s).
Proof.
  unfold dispatchClick.
  pose proof (registerOnClick_stops title newWindow
                                    {| propagationStopped := false |} s) as H.
  destruct (registerOnClick title newWindow _ s) as [e1 s1].
  cbv beta iota. cbn [fst snd] in *. now rewrite H.
Qed.

Lemma handleCardClick_flip now e s :
  let s' := snd (handleCardClick now e s) in
  isFlipped s' = negb (isFlipped s) /\ isFlipping s' = true
  /\ timeouts s' = timeouts s ++ [(now + 800)%Z].
Proof.
  unfold handleCardClick.
  set (s4 := setTimeouts _ _).
  pose proof (Array_from_frame explosionParticle explosionParticle_frame
                               15 s4) as Hfr.
  destruct (Array_from 15 explosionParticle s4) as [ex s5].
  simpl in *. unfold sameButCounters in Hfr. decompose [and] Hfr.
  repeat split; simpl; assumption.
Qed.

(** Every input but a click on the card surface keeps the flip state. *)
Lemma handle_sameFlip title now i s :
  isCardClick i = false -> sameFlip s (handle title now i s).
Proof.
  destruct i as [cardRef e| | |target newWindow| | |b| |]; simpl; intro Hc.
  - apply handleMouseMove_sameFlip.
  - unfold handleMouseEnter.
    destruct (createParticleBurst_sameFlip
                (emit (ControlsStart enterFlourish) (emit OnHover s)))
      as (Ha & Hb & Hd).
    repeat split; simpl in *; congruence.
  - repeat split.
  - destruct target; [discriminate|].
    rewrite dispatchClick_register.
    apply (registerOnClick_frame title newWindow
                                 {| propagationStopped := false |} s).
  - repeat split.
  - repeat split.
  - repeat split.
  - destruct (isHovered s || isFocused s);
      [apply createParticleBurst_sameFlip | repeat split].
  - destruct (particles s); repeat split.
Qed.

(** Without clicks on the card surface the particle cap is kept. *)
Lemma handle_keeps_cap title now i s :
  isCardClick i = false ->
  (List.length (particles s) <= 20)%nat ->
  (List.length (particles (handle title now i s)) <= 20)%nat.
Proof.
  destruct i as [cardRef e| | |target newWindow| | |b| |]; simpl;
    intros Hc Hcap; try assumption.
  - unfold handleMouseMove.
    destruct cardRef as [rect|]; [|assumption].
    destruct (isFlipped s); [assumption|].
    set (s1 := setMouse _ _ s).
    destruct (isHovered s1); [|assumption].
    unfold Math_random. destruct (JS.gtb _ _); [|assumption].
    apply createParticleBurst_cap.
  - apply createParticleBurst_cap.
  - simpl. lia.
  - destruct target; [discriminate|].
    rewrite dispatchClick_register.
    destruct (registerOnClick_frame title newWindow
                {| propagationStopped := false |} s) as (_ & Hp & _).
    now rewrite Hp.
  - destruct (isHovered s || isFocused s);
      [apply createParticleBurst_cap | assumption].
  - destruct (particles s) as [|p ps] eqn:E; [now rewrite E|].
    simpl. rewrite E. unfold animateParticles.
    etransitivity; [apply filter_length_le|].
    now rewrite length_map.
Qed.

Lemma run_keeps_cap title trace s :
  forallb (fun ti => negb (isCardClick (snd ti))) trace = true ->
  (List.length (particles s) <= 20)%nat ->
  (List.length (particles (run title trace s)) <= 20)%nat.
Proof.
  revert s. induction trace as [|[now i] trace IH]; intros s Hall Hcap;
    simpl in *; [assumption|].
  apply andb_true_iff in Hall. destruct Hall as [Hi Hall].
  apply negb_true_iff in Hi.
  apply IH; [assumption|]. unfold step. simpl.
  apply handle_keeps_cap; [assumption|].
  destruct (fireTimeouts_fields now s) as (_ & Hp & _). now rewrite Hp.
Qed.

End CardFacts.

Module ParticleClaims.

Import EventCard3D CardSpec CardFacts.

(** C2: one integration step maps each particle [{x, y, vx, vy}] to
    [{x + vx, y + vy, vx, vy + 0.2}] (same id, same order) and removes
    exactly the moved particles that violate [y < 600] or [-50 < x < 450];
    hence every particle left after a step satisfies [y < 600] and
    [-50 < x < 450]. *)
Theorem animateParticles_integrates_and_filters (prev : list Particle.t) :
  Integrates prev (animateParticles prev)
  /\ Forall visible (animateParticles prev).
Proof.
  unfold animateParticles. split.
  - induction prev as [|p ps IH]; simpl.
    + constructor.
    + rewrite advance_moved.
      destruct (inBounds (moved p)) eqn:E.
      * apply Integrates_keep; [now apply inBounds_visible | exact IH].
      * apply Integrates_drop; [| exact IH].
        intro Hv. apply inBounds_visible in Hv. congruence.
  - apply Forall_forall. intros q Hq.
    apply filter_In in Hq. now apply inBounds_visible.
Qed.

(** C1, at the failing input: with the card hovered, the entry burst, one
    frame and two clicks on the card leave 33 particles in the list, more
    than the cap of 20 that [createParticleBurst] enforces. *)
Theorem card_clicks_exceed_particle_cap :
  let trace := [(0, ParentHover true); (0, PointerEnter); (16, Frame);
                (100, Click CardSurface false);
                (400, Click CardSurface false)]%Z in
  let s := run "Ventura" trace (initial (fun _ => 0.5%Q)) in
  List.length (particles s) = 33%nat /\ (20 < List.length (particles s))%nat.
Proof.
  vm_compute. split; [reflexivity | lia].
Qed.

End ParticleClaims.

(** ** EventCard3D: the flip and its lock *)

Module FlipClaims.

Import EventCard3D CardSpec CardFacts.
Local Open Scope Z_scope.

Lemma step_card_click title now newWindow s :
  step title (now, Click CardSurface newWindow) s
  = snd (handleCardClick now {| propagationStopped := false |}
                         (fireTimeouts now s)).
Proof. reflexivity. Qed.

Lemma handle_timeouts_grow title now i s d :
  In d (timeouts s) -> In d (timeouts (handle title now i s)).
Proof.
  intro Hin. destruct (isCardClick i) eqn:Hc.
  - destruct i as [| | |[|] newWindow| | | | |]; try discriminate Hc.
    change (handle title now (Click CardSurface newWindow) s)
      with (snd (handleCardClick now {| propagationStopped := false |} s)).
    destruct (handleCardClick_flip now {| propagationStopped := false |} s)
      as (_ & _ & Ht).
    rewrite Ht. apply in_or_app. now left.
  - destruct (handle_sameFlip title now i s Hc) as (_ & _ & Ht).
    now rewrite Ht.
Qed.

(** A timeout that is not due yet is still pending after the step. *)
Lemma step_keeps_pending title now i s d :
  now < d -> In d (timeouts s) -> In d (timeouts (step title (now, i) s)).
Proof.
  intros Hlt Hin. unfold step. simpl fst. simpl snd.
  apply handle_timeouts_grow.
  destruct (fireTimeouts_fields now s) as (_ & _ & Ht & _). rewrite Ht.
  apply filter_In. split; [assumption|].
  apply negb_true_iff. apply Z.leb_gt. assumption.
Qed.

Lemma run_keeps_pending title trace s d :
  (forall ti, In ti trace -> fst ti < d) ->
  In d (timeouts s) -> In d (timeouts (run title trace s)).
Proof.
  revert s. induction trace as [|[now i] trace IH]; intros s Hall Hin;
    simpl; [assumption|].
  apply IH; [intros ti Hti; apply Hall; now right|].
  apply step_keeps_pending; [|assumption].
  apply (Hall (now, i)). now left.
Qed.

Lemma no_timeout_due now limit s :
  now < limit -> (forall d, In d (timeouts s) -> limit <= d) ->
  existsb (fun d => d <=? now) (timeouts s) = false.
Proof.
  intros Hlt Hall.
  destruct (existsb (fun d => d <=? now) (timeouts s)) eqn:E;
    [|reflexivity].
  apply existsb_exists in E. destruct E as (d & Hin & Hd).
  apply Z.leb_le in Hd. specialize (Hall d Hin). lia.
Qed.

Lemma fireTimeouts_locked now limit s :
  now < limit -> lockedUntil limit s -> lockedUntil limit (fireTimeouts now s).
Proof.
  intros Hlt [Hf Hall].
  destruct (fireTimeouts_fields now s) as (_ & _ & Ht & Hfl).
  split.
  - rewrite Hfl, (no_timeout_due now limit s Hlt Hall). exact Hf.
  - intros d Hd. rewrite Ht in Hd. apply filter_In in Hd.
    apply Hall. tauto.
Qed.

Lemma step_locked title now limit i s :
  now < limit -> limit <= now + 800 ->
  lockedUntil limit s -> lockedUntil limit (step title (now, i) s).
Proof.
  intros Hlt Hge Hl. unfold step. simpl fst. simpl snd.
  apply (fireTimeouts_locked now limit s Hlt) in Hl.
  destruct Hl as [Hf Hall].
  destruct (isCardClick i) eqn:Hc.
  - destruct i as [| | |[|] newWindow| | | | |]; try discriminate Hc.
    change (handle title now (Click CardSurface newWindow)
                   (fireTimeouts now s))
      with (snd (handleCardClick now {| propagationStopped := false |}
                                 (fireTimeouts now s))).
    destruct (handleCardClick_flip now {| propagationStopped := false |}
                                   (fireTimeouts now s)) as (_ & Hfl & Ht).
    split; [exact Hfl|].
    intros d Hd. rewrite Ht in Hd. apply in_app_or in Hd.
    destruct Hd as [Hd|[<-|[]]]; [now apply Hall | lia].
  - destruct (handle_sameFlip title now i (fireTimeouts now s) Hc)
      as (_ & Hfl & Ht).
    split; [congruence|]. intros d Hd. rewrite Ht in Hd. now apply Hall.
Qed.

Lemma run_locked title limit trace s :
  (forall ti, In ti trace -> fst ti < limit /\ limit <= fst ti + 800) ->
  lockedUntil limit s -> lockedUntil limit (run title trace s).
Proof.
  revert s. induction trace as [|[now i] trace IH]; intros s Hall Hl;
    simpl; [assumption|].
  apply IH; [intros ti Hti; apply Hall; now right|].
  destruct (Hall (now, i)) as [H1 H2]; [now left|].
  apply step_locked; assumption.
Qed.

(** C3, as the code has it: a click on the card toggles [flipped] once and
    sets [flipping]; the reset it schedules is never cancelled, so 800 ms
    after the click [flipping] is false whatever inputs, further clicks
    included, arrive inside the window; a further click is not blocked and
    toggles [flipped] again.  [flipping] stays true during the whole window
    when no reset of an earlier click is due inside it. *)
Theorem click_toggles_once_and_lock_resets
        (title : string) (t : Z) (newWindow : bool) (s : Card)
        (later : list (Z * Input)) :
  (forall ti, In ti later -> t <= fst ti < t + 800) ->
  let s1 := step title (t, Click CardSurface newWindow) s in
  isFlipped s1 = negb (isFlipped s)
  /\ isFlipping s1 = true
  /\ flippingAt (t + 800) (run title later s1) = false
  /\ (forall t2 nw2,
         isFlipped (step title (t2, Click CardSurface nw2)
                         (run title later s1))
         = negb (isFlipped (run title later s1)))
  /\ ((forall d, In d (timeouts s) -> d <= t \/ t + 800 <= d) ->
      forall now, t <= now < t + 800 ->
                  flippingAt now (run title later s1) = true).
Proof.
  intros Hwin s1. subst s1. rewrite step_card_click.
  destruct (handleCardClick_flip t {| propagationStopped := false |}
                                 (fireTimeouts t s)) as (Hfd & Hfl & Ht).
  destruct (fireTimeouts_fields t s) as (Hfd0 & _ & Ht0 & _).
  set (s1 := snd (handleCardClick t _ _)) in *.
  split; [congruence|]. split; [exact Hfl|]. split; [|split].
  - unfold flippingAt.
    destruct (fireTimeouts_fields (t + 800) (run title later s1))
      as (_ & _ & _ & Hf).
    rewrite Hf.
    assert (In (t + 800) (timeouts (run title later s1))) as Hin.
    { apply run_keeps_pending.
      - intros ti Hti. specialize (Hwin ti Hti). lia.
      - rewrite Ht. apply in_or_app. right. now left. }
    assert (existsb (fun d => d <=? t + 800)
                    (timeouts (run title later s1)) = true) as ->.
    { apply existsb_exists. exists (t + 800). split; [assumption|].
      apply Z.leb_refl. }
    reflexivity.
  - intros t2 nw2. rewrite step_card_click.
    destruct (handleCardClick_flip t2 {| propagationStopped := false |}
                (fireTimeouts t2 (run title later s1))) as (Hfd2 & _).
    destruct (fireTimeouts_fields t2 (run title later s1)) as (Hfd3 & _).
    congruence.
  - intros Hidle now Hnow.
    assert (lockedUntil (t + 800) s1) as Hl.
    { split; [exact Hfl|]. intros d Hd. rewrite Ht, Ht0 in Hd.
      apply in_app_or in Hd. destruct Hd as [Hd|[<-|[]]]; [|lia].
      apply filter_In in Hd. destruct Hd as [Hd Hgt].
      apply negb_true_iff in Hgt. apply Z.leb_gt in Hgt.
      destruct (Hidle d Hd); lia. }
    apply (run_locked title (t + 800) later) in Hl.
    + apply (fireTimeouts_locked now (t + 800)) in Hl; [|lia].
      exact (proj1 Hl).
    + intros ti Hti. specialize (Hwin ti Hti). lia.
Qed.

Lemma click_toggles_once_and_lock_resets_witness :
  let s0 := initial (fun _ => 0.5%Q) in
  let s1 := step "Ventura" (0, Click CardSurface false) s0 in
  let s2 := run "Ventura" [(500, Click CardSurface false)] s1 in
  isFlipped s1 = true /\ flippingAt 800 s2 = false
  /\ flippingAt 799 s2 = true.
Proof.
  assert (forall ti : Z * Input,
             In ti [(500, Click CardSurface false)] -> 0 <= fst ti < 0 + 800)
    as Hwin by (intros ti [<-|[]]; simpl; lia).
  destruct (click_toggles_once_and_lock_resets
              "Ventura" 0 false (initial (fun _ => 0.5%Q))
              [(500, Click CardSurface false)] Hwin)
    as (Hfd & _ & Hoff & _ & Hon).
  split; [exact Hfd|]. split; [exact Hoff|].
  apply Hon; [intros d []| lia].
Defined.

(** C3, as stated, fails for a click made inside an earlier click's window:
    after clicks at 0 ms and 500 ms, [flipping] is still true at 799 ms and
    false at 800 ms, 300 ms after the second click. *)
Lemma second_click_lock_ends_after_300ms :
  let s := run "Ventura" [(0, Click CardSurface false);
                          (500, Click CardSurface false)]
               (initial (fun _ => 0.5%Q)) in
  flippingAt 799 s = true /\ flippingAt 800 s = false
  /\ 800 - 500 = 300 /\ 800 < 500 + 800.
Proof.
  vm_compute. repeat split.
Qed.

End FlipClaims.

(** ** EventCard3D: pointer transforms, the flipped card, the Register
       button *)

Module PointerClaims.

Import EventCard3D CardSpec CardFacts.
Local Open Scope Q_scope.

Lemma clamp_cases lo hi v :
  lo <= hi ->
  (v <= lo /\ clamp lo hi v = lo)
  \/ (hi <= v /\ clamp lo hi v = hi)
  \/ (lo <= v <= hi /\ clamp lo hi v = v).
Proof.
  intro Hle. unfold clamp, JS.gtb.
  destruct (JS.ltb hi v) eqn:E1.
  - apply ltb_lt in E1. right; left. split; [lra|reflexivity].
  - apply ltb_ge in E1. destruct (JS.ltb v lo) eqn:E2.
    + apply ltb_lt in E2. left. split; [lra|reflexivity].
    + apply ltb_ge in E2. right; right. split; [lra|reflexivity].
Qed.

Lemma clamp_bounds lo hi v : lo <= hi -> lo <= clamp lo hi v <= hi.
Proof.
  intro Hle.
  destruct (clamp_cases lo hi v Hle) as [[H ->]|[[H ->]|[H ->]]]; lra.
Qed.

Lemma div_input_width x : x / (0.5 - -0.5) == x.
Proof. field. Qed.

(** Over the input range [-0.5, 0.5] the interpolation is affine in the
    clamped input. *)
Lemma useTransform_affine v a b :
  useTransform v (-0.5) 0.5 a b
  == a + (b - a) * (clamp (-0.5) 0.5 v + 0.5).
Proof.
  unfold useTransform. cbv zeta. rewrite div_input_width. ring.
Qed.

(** C6, as the code has it: each pointer-derived value is the linear
    interpolation of the spring value clamped to [-0.5, 0.5], so rotation
    stays in [-25, 25], lift in [-60, -30], depth in [20, 80] and scale in
    [1.02, 1.15] for every input.  The depth and scale the card applies
    while it is unflipped and hovered or focused are not these values but
    constants that do not depend on the pointer: 60 and 1.08 when hovered,
    100 and 1.12 when only focused. *)
Theorem pointer_transforms_clamped_and_applied
        (s : Card) (springX springY : Q) :
  let cx := clamp (-0.5) 0.5 springX in
  let cy := clamp (-0.5) 0.5 springY in
  (rotateX springY == -50 * cy /\ rotateY springX == 50 * cx
   /\ levitateY springY == -45 - 30 * cy
   /\ levitateZ springX == 50 + 60 * cx
   /\ depthScale springY == 1.085 + 0.13 * cy)
  /\ (-0.5 <= cx <= 0.5 /\ -0.5 <= cy <= 0.5)
  /\ (-25 <= rotateX springY <= 25 /\ -25 <= rotateY springX <= 25
      /\ -60 <= levitateY springY <= -30
      /\ 20 <= levitateZ springX <= 80
      /\ 1.02 <= depthScale springY <= 1.15)
  /\ (tiltActive s = true ->
      let a := innerAnimate s springX springY in
      Animate.z a = (if isHovered s then 60 else 100)
      /\ Animate.scale a = (if isHovered s then 1.08 else 1.12)
      /\ (forall springX' springY',
             Animate.z (innerAnimate s springX' springY') = Animate.z a
             /\ Animate.scale (innerAnimate s springX' springY')
                = Animate.scale a)).
Proof.
  intros cx cy.
  assert (-0.5 <= 0.5) as Hle by lra.
  pose proof (clamp_bounds (-0.5) 0.5 springX Hle) as Hx.
  pose proof (clamp_bounds (-0.5) 0.5 springY Hle) as Hy.
  fold cx in Hx. fold cy in Hy.
  assert (rotateX springY == -50 * cy) as E1
      by (unfold rotateX; rewrite useTransform_affine; fold cy; ring).
  assert (rotateY springX == 50 * cx) as E2
      by (unfold rotateY; rewrite useTransform_affine; fold cx; ring).
  assert (levitateY springY == -45 - 30 * cy) as E3
      by (unfold levitateY; rewrite useTransform_affine; fold cy; ring).
  assert (levitateZ springX == 50 + 60 * cx) as E4
      by (unfold levitateZ; rewrite useTransform_affine; fold cx; ring).
  assert (depthScale springY == 1.085 + 0.13 * cy) as E5
      by (unfold depthScale; rewrite useTransform_affine; fold cy; ring).
  split; [tauto|]. split; [tauto|]. split.
  - rewrite E1, E2, E3, E4, E5. repeat split; lra.
  - unfold tiltActive. intro Hact.
    apply andb_true_iff in Hact. destruct Hact as [Hnf Hhf].
    unfold innerAnimate. cbv zeta.
    cbn [Animate.z Animate.scale].
    rewrite Hnf. cbn [andb].
    destruct (isHovered s); cbn [orb] in Hhf; [repeat split|].
    rewrite Hhf. repeat split.
Qed.

Lemma pointer_transforms_clamped_and_applied_witness :
  let s := setIsHovered true (initial (fun _ => 0.5)) in
  let a := innerAnimate s 2 (-3) in
  Animate.z a = 60 /\ Animate.scale a = 1.08
  /\ Animate.z (innerAnimate s (-0.5) 0.5) = Animate.z a.
Proof.
  destruct (proj2 (proj2 (proj2
              (pointer_transforms_clamped_and_applied
                 (setIsHovered true (initial (fun _ => 0.5))) 2 (-3))))
              eq_refl) as (Hz & Hs & Hany).
  split; [exact Hz|]. split; [exact Hs|].
  exact (proj1 (Hany (-0.5) 0.5)).
Defined.

(** C6, as stated, fails: on a hovered, unflipped card with both springs at
    0.5 the interpolated depth is 80 and the interpolated scale 1.15, but
    the card applies 60 and 1.08; on a card that is only focused the applied
    depth is 100, outside [20, 80]. *)
Lemma applied_depth_and_scale_are_not_interpolated :
  let hovered := setIsHovered true (initial (fun _ => 0.5)) in
  let focused := setIsFocused true (initial (fun _ => 0.5)) in
  tiltActive hovered = true /\ tiltActive focused = true
  /\ levitateZ 0.5 == 80 /\ depthScale 0.5 == 1.15
  /\ Animate.z (innerAnimate hovered 0.5 0.5) == 60
  /\ Animate.scale (innerAnimate hovered 0.5 0.5) == 1.08
  /\ ~ Animate.z (innerAnimate hovered 0.5 0.5) == levitateZ 0.5
  /\ ~ Animate.scale (innerAnimate hovered 0.5 0.5) == depthScale 0.5
  /\ Animate.z (innerAnimate focused 0.5 0.5) == 100
  /\ ~ Animate.z (innerAnimate focused 0.5 0.5) <= 80.
Proof.
  cbv zeta. split; [reflexivity|]. split; [reflexivity|].
  split; [vm_compute; reflexivity|]. split; [vm_compute; reflexivity|].
  split; [vm_compute; reflexivity|]. split; [vm_compute; reflexivity|].
  split; [intro H; vm_compute in H; discriminate H|].
  split; [intro H; vm_compute in H; discriminate H|].
  split; [vm_compute; reflexivity|].
  intro H. vm_compute in H. apply H. reflexivity.
Qed.

(** C7: while [flipped] is true a pointer move returns at once: any run of
    pointer moves leaves the whole state, [mouseX], [mouseY] and the
    particle list included, unchanged, and the card renders the neutral
    transform (no rotation, lift or depth, scale 1). *)
Theorem pointer_moves_ignored_while_flipped
        (s : Card) (moves : list (option Rect * MouseEvent))
        (cardRef : option Rect) (e : MouseEvent) (springX springY : Q) :
  isFlipped s = true ->
  handleMouseMove cardRef e s = s
  /\ fold_left (fun acc m => handleMouseMove (fst m) (snd m) acc) moves s = s
  /\ innerAnimate s springX springY = Animate.mk (Number 0) (Number 0) 0 1.
Proof.
  intro Hf.
  assert (forall r ev, handleMouseMove r ev s = s) as Hone.
  { intros r ev. unfold handleMouseMove. destruct r; [|reflexivity].
    now rewrite Hf. }
  split; [apply Hone|]. split.
  - induction moves as [|m moves IH]; simpl; [reflexivity|].
    now rewrite Hone.
  - unfold innerAnimate. rewrite Hf. reflexivity.
Qed.

Lemma pointer_moves_ignored_while_flipped_witness :
  let s := step "Ventura" (0%Z, Click CardSurface false)
                (setIsHovered true (initial (fun _ => 0.5))) in
  let rect := {| left := 0; top := 0; width := 400; height := 600 |} in
  let e := {| clientX := 350; clientY := 80 |} in
  handleMouseMove (Some rect) e s = s
  /\ innerAnimate s 0.4 (-0.4) = Animate.mk (Number 0) (Number 0) 0 1.
Proof.
  destruct (pointer_moves_ignored_while_flipped
              (step "Ventura" (0%Z, Click CardSurface false)
                    (setIsHovered true (initial (fun _ => 0.5))))
              []
              (Some {| left := 0; top := 0; width := 400; height := 600 |})
              {| clientX := 350; clientY := 80 |} 0.4 (-0.4) eq_refl)
    as (H1 & _ & H3).
  split; [exact H1 | exact H3].
Defined.

(** C9: a click on the Register button runs the button's handler only: the
    handler stops propagation, so the card's click handler does not run, and
    [flipped], [flipping], the pending timeouts, the pointer values and the
    particle list (with its id counter) are what they were. *)
Theorem register_click_leaves_card_state
        (title : string) (now : Z) (newWindow : bool) (s : Card) :
  let fresh := {| propagationStopped := false |} in
  let s' := handle title now (Click RegisterButton newWindow) s in
  propagationStopped (fst (registerOnClick title newWindow fresh s)) = true
  /\ s' = snd (registerOnClick title newWindow fresh s)
  /\ isFlipped s' = isFlipped s /\ isFlipping s' = isFlipping s
  /\ timeouts s' = timeouts s
  /\ particles s' = particles s /\ particleIdRef s' = particleIdRef s
  /\ mouseX s' = mouseX s /\ mouseY s' = mouseY s.
Proof.
  intros fresh s'. subst s'.
  change (handle title now (Click RegisterButton newWindow) s)
    with (dispatchClick title now RegisterButton newWindow s).
  rewrite dispatchClick_register. fold fresh.
  destruct (registerOnClick_frame title newWindow fresh s)
    as ((H1 & H2 & H3) & H4 & H5 & _ & H7 & H8 & _).
  split; [apply registerOnClick_stops|]. repeat split; assumption.
Qed.

(** C5: a click on Register looks the title up in the static table.  A
    title in the table opens exactly its URL in a new browsing context
    ([_blank]) with [noopener,noreferrer], and clears [opener] if a window
    object comes back; "Brand-o-Vation" maps to
    https://brand-o-vation.vercel.app/.  Any other title gets the "coming
    soon" notice and nothing is opened. *)
Theorem register_click_routes_by_title
        (title : string) (now : Z) (newWindow : bool) (s : Card) :
  effects (handle title now (Click RegisterButton newWindow) s)
  = (effects s
     ++ match JS.get title registrationSites with
        | Some url =>
          WindowOpen url "_blank" "noopener,noreferrer"
            :: (if newWindow then [SetOpenerNull] else [])
        | None => [Alert ("Registration for " ++ title ++ " coming soon!")]
        end)%list
  /\ JS.get "Brand-o-Vation"%string registrationSites
     = Some "https://brand-o-vation.vercel.app/"%string
  /\ JS.get "Ventura"%string registrationSites
     = Some "https://ventura-zeta.vercel.app/"%string
  /\ JS.get "The Paradox Protocol"%string registrationSites
     = Some "https://paradox-protocol-theta.vercel.app/"%string
  /\ JS.get "Capitalyze"%string registrationSites
     = Some "https://capitalyze.vercel.app/"%string.
Proof.
  split; [|repeat split].
  change (handle title now (Click RegisterButton newWindow) s)
    with (dispatchClick title now RegisterButton newWindow s).
  rewrite dispatchClick_register. unfold registerOnClick.
  assert (eventUrlFor title = JS.get title registrationSites) as ->
      by reflexivity.
  destruct (JS.get title registrationSites) as [url|]; [|reflexivity].
  destruct newWindow; simpl; [|reflexivity].
  now rewrite <- app_assoc.
Qed.

End PointerClaims.

(** ** AnimatedSection: the one-shot trigger *)

Module TriggerClaims.

Import Motion AnimatedSection SectionSpec.
Local Open Scope nat_scope.

Lemma onEntry_latch p o b s :
  hasAnimated s = true -> hasAnimated (onEntry p o b s) = true.
Proof.
  intro H. unfold onEntry, callOnAnimationStart.
  destruct (b && negb (sawHasAnimated o)); [|assumption].
  destruct (Props.onAnimationStart p); reflexivity.
Qed.

Lemma observerCallback_latch p o entries s :
  hasAnimated s = true -> hasAnimated (observerCallback p o entries s) = true.
Proof.
  unfold observerCallback. revert s.
  induction entries as [|b entries IH]; intros s H; simpl; [assumption|].
  apply IH. now apply onEntry_latch.
Qed.

Lemma step_latch p env i s :
  hasAnimated s = true -> hasAnimated (step p env i s) = true.
Proof.
  intro H. destruct i as [entries|changed|]; simpl.
  - destruct (observer s); [now apply observerCallback_latch | assumption].
  - destruct (changed || negb (Bool.eqb (hasAnimated s) (depHasAnimated s)));
      [|assumption].
    unfold effect. destruct (negb true || Env.prefersReducedMotion env);
      assumption.
  - assumption.
Qed.

(** X10: the latch never goes back: once [hasAnimated] is true it is true after
    every further input. *)
Lemma hasAnimated_never_resets p env inputs s :
  hasAnimated s = true -> hasAnimated (run p env inputs s) = true.
Proof.
  unfold run. revert s.
  induction inputs as [|i inputs IH]; intros s H; simpl; [assumption|].
  apply IH. now apply step_latch.
Qed.

Lemma mount_waiting env :
  Env.prefersReducedMotion env = false -> mount env = waiting.
Proof.
  intro Hrm. unfold mount, effect. rewrite Hrm. reflexivity.
Qed.

Lemma settledRound_waiting p env b :
  Env.prefersReducedMotion env = false ->
  settledRound p env b waiting = if b then triggered p else waiting.
Proof.
  intro Hrm. unfold settledRound, run, waiting. cbn [fold_left].
  unfold step at 3. cbn [observer]. unfold observerCallback.
  cbn [fold_left]. unfold onEntry, callOnAnimationStart.
  destruct b; [|reflexivity].
  destruct (Props.onAnimationStart p) eqn:E; cbn; unfold effect;
    rewrite Hrm; cbn; unfold triggered; rewrite E; reflexivity.
Qed.

Lemma settledRound_triggered p env b :
  settledRound p env b (triggered p) = triggered p.
Proof.
  unfold settledRound, run, triggered. cbn [fold_left].
  unfold step at 3. cbn [observer]. unfold observerCallback.
  cbn [fold_left]. unfold onEntry. cbn [liveObserver sawHasAnimated negb].
  rewrite andb_false_r. reflexivity.
Qed.

(** X11: in a settled schedule (one entry per callback, a commit and a frame
    after each) the start callback and the visible transition fire once, at
    the first intersecting observation, and never again. *)
Lemma one_shot_in_settled_schedule p env (observations : list bool) :
  Env.prefersReducedMotion env = false ->
  fold_left (fun acc b => settledRound p env b acc) observations (mount env)
  = if existsb (fun b => b) observations then triggered p else waiting.
Proof.
  intro Hrm. rewrite (mount_waiting env Hrm).
  assert (forall obs,
             fold_left (fun acc b => settledRound p env b acc) obs
                       (triggered p) = triggered p) as Hdone.
  { induction obs as [|b obs IH]; cbn [fold_left]; [reflexivity|].
    now rewrite settledRound_triggered. }
  induction observations as [|b obs IH]; cbn [fold_left existsb];
    [reflexivity|].
  rewrite (settledRound_waiting p env b Hrm).
  destruct b; cbn [orb]; [apply Hdone | exact IH].
Qed.

(** C4, at the failing input: one callback invocation that carries the
    entries of a scroll-in, a scroll-out and a second scroll-in runs the
    guarded body twice, because the guard reads the [hasAnimated] the
    callback closed over: the start callback is called twice and the
    visible transition is started twice. *)
Theorem batched_entries_retrigger_start :
  let p := sampleProps Slide Medium true false in
  let env := sampleEnv 8 (Some 8%Q) desktopAgent in
  let s := run p env [Intersections [true; false; true]; Rerender false;
                      AnimationFrame] (mount env) in
  hasAnimated s = true /\ startCalls s = 2 /\ visibleStarts s = 2.
Proof.
  vm_compute. repeat split.
Qed.

Lemma step_reduced p env i s :
  Env.prefersReducedMotion env = true ->
  observer s = None -> startCalls s = 0 ->
  observer (step p env i s) = None /\ startCalls (step p env i s) = 0.
Proof.
  intros Hrm Ho Hs. destruct i as [entries|changed|]; cbn [step].
  - rewrite Ho. split; assumption.
  - destruct (changed || negb (Bool.eqb (hasAnimated s) (depHasAnimated s)));
      [|split; assumption].
    unfold effect. rewrite Hrm. cbn. split; [reflexivity | assumption].
  - cbn. split; assumption.
Qed.

(** C8, as the code has it: with the reduced-motion preference active the
    mount effect attaches no observer, then or later, and starts the
    transition to [visible] itself, without waiting for an intersection or
    a frame.  The element is still created in the [hidden] variant
    (opacity 0) and reaches opacity 1 by a transition of 0.2 s. *)
Theorem reduced_motion_skips_observer_and_fades_in
        (p : Props.t) (env : Env.t) (inputs : list Input) :
  Env.prefersReducedMotion env = true ->
  observer (mount env) = None
  /\ visibleStarts (mount env) = 1
  /\ frameRequests (mount env) = 0
  /\ observer (run p env inputs (mount env)) = None
  /\ startCalls (run p env inputs (mount env)) = 0
  /\ firstFrame (render p env) = [("opacity"%string, 0%Q)]
  /\ Variants.visible (getAnimationVariants p env)
     = [("opacity"%string, 1%Q)]
  /\ Variants.transition (getAnimationVariants p env)
     = Transition.mk 0.2%Q [] None None.
Proof.
  intro Hrm.
  assert (forall ins s, observer s = None -> startCalls s = 0 ->
                        observer (run p env ins s) = None
                        /\ startCalls (run p env ins s) = 0) as Hinv.
  { unfold run. induction ins as [|i ins IH]; intros s Ho Hs;
      cbn [fold_left]; [split; assumption|].
    destruct (step_reduced p env i s Hrm Ho Hs) as [Ho1 Hs1].
    now apply IH. }
  assert (observer (mount env) = None /\ startCalls (mount env) = 0
          /\ visibleStarts (mount env) = 1 /\ frameRequests (mount env) = 0)
    as (Ho & Hs & Hv & Hq).
  { unfold mount, effect. rewrite Hrm. repeat split. }
  destruct (Hinv inputs (mount env) Ho Hs) as [Ho' Hs'].
  unfold firstFrame, render, getAnimationVariants. rewrite Hrm.
  repeat split; assumption.
Qed.

Lemma reduced_motion_skips_observer_and_fades_in_witness :
  let p := sampleProps Slide Medium true false in
  observer (mount reducedMotionEnv) = None
  /\ visibleStarts (mount reducedMotionEnv) = 1
  /\ JS.get "opacity" (firstFrame (render p reducedMotionEnv)) = Some 0%Q.
Proof.
  destruct (reduced_motion_skips_observer_and_fades_in
              (sampleProps Slide Medium true false) reducedMotionEnv
              [Intersections [true]; Rerender false] eq_refl)
    as (H1 & H2 & _ & _ & _ & H6 & _).
  split; [exact H1|]. split; [exact H2|].
  rewrite H6. reflexivity.
Defined.

(** C8, as stated, fails: on a reduced-motion mount the first frame is the
    hidden variant, opacity 0 and not the final opacity 1, and the visible
    state is reached through a transition that lasts 0.2 s. *)
Lemma reduced_motion_first_frame_is_hidden :
  let p := sampleProps Slide Medium true false in
  let r := render p reducedMotionEnv in
  Env.prefersReducedMotion reducedMotionEnv = true
  /\ Rendered.initial r = "hidden"%string
  /\ JS.get "opacity" (firstFrame r) = Some 0%Q
  /\ JS.get "opacity" (Variants.visible (Rendered.variants r)) = Some 1%Q
  /\ firstFrame r <> Variants.visible (Rendered.variants r)
  /\ Transition.duration (Variants.transition (Rendered.variants r)) = 0.2%Q.
Proof.
  repeat split. intro H. discriminate H.
Qed.

End TriggerClaims.

(** ** AnimatedSection: what the variants depend on *)

Module VariantClaims.

Import Motion SectionSpec.
Local Open Scope Q_scope.

Lemma part001_variants_skip_enableParticles
      (p : Props.t) (env : Env.t) (b : bool) :
  AnimatedSectionAlt.getAnimationVariants
    (SectionLaws.withEnableParticles b p) env
  = AnimatedSectionAlt.getAnimationVariants p env.
Proof.
  destruct p. reflexivity.
Qed.

(** C10, as the code has it: in the shipped component the variants (the
    whole render output, in fact) are a function of [animationType], the
    base [duration] and the reduced-motion flag alone, and no particle
    trail is rendered, whatever [intensity], [enable3D], [enableParticles]
    and the device signals are.  The capability-branching version is
    different: its variants change with [intensity], with [enable3D], and
    with the CPU core count, the device memory and the user agent; they do
    not change with [enableParticles], which there decides only whether
    the particle trail is rendered. *)
Theorem shipped_variants_ignore_capability_inputs
        (p1 p2 : Props.t) (env1 env2 : Env.t) :
  Props.animationType p1 = Props.animationType p2 ->
  Props.duration p1 = Props.duration p2 ->
  Env.prefersReducedMotion env1 = Env.prefersReducedMotion env2 ->
  (AnimatedSection.getAnimationVariants p1 env1
   = AnimatedSection.getAnimationVariants p2 env2
   /\ AnimatedSection.render p1 env1 = AnimatedSection.render p2 env2
   /\ Rendered.particleTrail (AnimatedSection.render p1 env1) = false)
  /\ (let desktop := sampleEnv 8 (Some 8) desktopAgent in
      sameVariants
        (AnimatedSectionAlt.getAnimationVariants
           (sampleProps Rotate Light true false) desktop)
        (AnimatedSectionAlt.getAnimationVariants
           (sampleProps Rotate Heavy true false) desktop) = false
      /\ sameVariants
           (AnimatedSectionAlt.getAnimationVariants
              (sampleProps Rotate Medium true false) desktop)
           (AnimatedSectionAlt.getAnimationVariants
              (sampleProps Rotate Medium false false) desktop) = false
      /\ Rendered.particleTrail
           (AnimatedSectionAlt.render
              (sampleProps Rotate Medium true true) desktop) = true
      /\ Rendered.particleTrail
           (AnimatedSectionAlt.render
              (sampleProps Rotate Medium true false) desktop) = false)
  /\ (let p := sampleProps Slide Medium true false in
      sameVariants
        (AnimatedSectionAlt.getAnimationVariants
           p (sampleEnv 2 None phoneAgent))
        (AnimatedSectionAlt.getAnimationVariants
           p (sampleEnv 8 None phoneAgent)) = false
      /\ sameVariants
           (AnimatedSectionAlt.getAnimationVariants
              p (sampleEnv 8 (Some 2) desktopAgent))
           (AnimatedSectionAlt.getAnimationVariants
              p (sampleEnv 8 (Some 8) desktopAgent)) = false
      /\ sameVariants
           (AnimatedSectionAlt.getAnimationVariants
              p (sampleEnv 2 None phoneAgent))
           (AnimatedSectionAlt.getAnimationVariants
              p (sampleEnv 2 None desktopAgent)) = false)
  /\ (forall (p : Props.t) (env : Env.t) (b : bool),
         AnimatedSectionAlt.getAnimationVariants
           (SectionLaws.withEnableParticles b p) env
         = AnimatedSectionAlt.getAnimationVariants p env).
Proof.
  intros Ht Hd Hrm.
  assert (AnimatedSection.getAnimationVariants p1 env1
          = AnimatedSection.getAnimationVariants p2 env2) as Hv.
  { unfold AnimatedSection.getAnimationVariants,
      AnimatedSection.optimizedSettings.
    rewrite Ht, Hd, Hrm. reflexivity. }
  split; [|split; [|split]].
  - split; [exact Hv|]. unfold AnimatedSection.render.
    rewrite Hv. split; reflexivity.
  - vm_compute. repeat split.
  - vm_compute. repeat split.
  - exact part001_variants_skip_enableParticles.
Qed.

Lemma shipped_variants_ignore_capability_inputs_witness :
  AnimatedSection.getAnimationVariants
    (sampleProps Scale Light true true) (sampleEnv 8 (Some 8) desktopAgent)
  = AnimatedSection.getAnimationVariants
      (sampleProps Scale Heavy false false) (sampleEnv 2 (Some 2) phoneAgent).
Proof.
  exact (proj1 (proj1 (shipped_variants_ignore_capability_inputs
                         (sampleProps Scale Light true true)
                         (sampleProps Scale Heavy false false)
                         (sampleEnv 8 (Some 8) desktopAgent)
                         (sampleEnv 2 (Some 2) phoneAgent)
                         eq_refl eq_refl eq_refl))).
Defined.

(** C10, as stated, fails for [enableParticles]: in the
    capability-branching version two runs that differ only in
    [enableParticles] get the same variants, on a high-end desktop where
    the flag does switch the particle trail, and for every other props and
    environment. *)
Lemma part001_variants_same_for_enableParticles :
  (let desktop := sampleEnv 8 (Some 8) desktopAgent in
   let withTrail := sampleProps Rotate Medium true true in
   let noTrail := sampleProps Rotate Medium true false in
   noTrail = SectionLaws.withEnableParticles false withTrail
   /\ Rendered.particleTrail (AnimatedSectionAlt.render withTrail desktop)
      <> Rendered.particleTrail (AnimatedSectionAlt.render noTrail desktop)
   /\ AnimatedSectionAlt.getAnimationVariants withTrail desktop
      = AnimatedSectionAlt.getAnimationVariants noTrail desktop)
  /\ (forall (p : Props.t) (env : Env.t) (b : bool),
         AnimatedSectionAlt.getAnimationVariants
           (SectionLaws.withEnableParticles b p) env
         = AnimatedSectionAlt.getAnimationVariants p env).
Proof.
  split; [|exact part001_variants_skip_enableParticles].
  cbv zeta. split; [reflexivity|]. split; [|reflexivity].
  vm_compute. intro H. discriminate H.
Qed.

End VariantClaims.
(** ** EventCard3D: invariants of the particle list *)

Module ParticleLaws.

Import EventCard3D CardSpec CardFacts CardLaws.
Local Open Scope Q_scope.

(** *** Strictly increasing ids *)

Lemma idsWithin_bounds lo hi ids : idsWithin lo hi ids -> (lo <= hi)%nat.
Proof.
  revert lo. induction ids as [|i rest IH]; intros lo H; simpl in H;
    [assumption|].
  destruct H as [Hlo Hrest]. specialize (IH _ Hrest). lia.
Qed.

Lemma idsWithin_weaken lo lo' hi hi' ids :
  (lo' <= lo)%nat -> (hi <= hi')%nat ->
  idsWithin lo hi ids -> idsWithin lo' hi' ids.
Proof.
  revert lo lo'. induction ids as [|i rest IH]; intros lo lo' Hlo Hhi H;
    simpl in *; [lia|].
  destruct H as [Hi Hrest]. split; [lia|].
  apply (IH (S i) (S i)); [lia | assumption | assumption].
Qed.

Lemma idsWithin_app lo mid hi a b :
  idsWithin lo mid a -> idsWithin mid hi b -> idsWithin lo hi (a ++ b).
Proof.
  revert lo. induction a as [|i rest IH]; intros lo Ha Hb; simpl in *.
  - apply (idsWithin_weaken mid lo hi hi); [assumption | lia | assumption].
  - destruct Ha as [Hi Hrest]. split; [assumption|]. now apply IH.
Qed.

Lemma idsWithin_skipn k lo hi ids :
  idsWithin lo hi ids -> idsWithin lo hi (skipn k ids).
Proof.
  revert lo ids. induction k as [|k IH]; intros lo ids H; [assumption|].
  destruct ids as [|i rest]; [assumption|]. simpl in *.
  destruct H as [Hi Hrest]. apply IH.
  apply (idsWithin_weaken (S i) lo hi hi); [lia | lia | assumption].
Qed.

Lemma idsWithin_seq a n : idsWithin a (a + n) (seq a n).
Proof.
  revert a. induction n as [|n IH]; intro a; simpl; [lia|].
  split; [lia|]. replace (a + S n)%nat with (S a + n)%nat by lia. apply IH.
Qed.

Lemma idsWithin_lower lo hi ids i :
  idsWithin lo hi ids -> In i ids -> (lo <= i < hi)%nat.
Proof.
  revert lo. induction ids as [|j rest IH]; intros lo H Hin; [destruct Hin|].
  simpl in H. destruct H as [Hj Hrest].
  pose proof (idsWithin_bounds _ _ _ Hrest) as Hb.
  destruct Hin as [<-|Hin]; [lia|].
  specialize (IH _ Hrest Hin). lia.
Qed.

Lemma idsWithin_NoDup lo hi ids : idsWithin lo hi ids -> NoDup ids.
Proof.
  revert lo. induction ids as [|i rest IH]; intros lo H; [constructor|].
  simpl in H. destruct H as [Hi Hrest]. constructor.
  - intro Hin. pose proof (idsWithin_lower _ _ _ _ Hrest Hin). lia.
  - now apply (IH (S i)).
Qed.

Lemma idsWithin_animate lo hi ps :
  idsWithin lo hi (map Particle.id ps) ->
  idsWithin lo hi (map Particle.id (animateParticles ps)).
Proof.
  unfold animateParticles. revert lo.
  induction ps as [|p ps IH]; intros lo H; simpl in *; [assumption|].
  destruct H as [Hp Hrest]. specialize (IH _ Hrest).
  destruct (inBounds (advance p)); simpl.
  - split; assumption.
  - apply (idsWithin_weaken (S (Particle.id p)) lo hi hi);
      [lia | lia | assumption].
Qed.

Lemma ambientParticle_fresh : takesFreshId ambientParticle.
Proof. intro s. split; reflexivity. Qed.

Lemma explosionParticle_fresh : takesFreshId explosionParticle.
Proof. intro s. split; reflexivity. Qed.

Lemma Array_from_ids make n s :
  takesFreshId make ->
  map Particle.id (fst (Array_from n make s)) = seq (particleIdRef s) n
  /\ particleIdRef (snd (Array_from n make s)) = (particleIdRef s + n)%nat.
Proof.
  intro Hmake. revert s. induction n as [|n IH]; intro s; simpl.
  - split; [reflexivity | lia].
  - unfold bind. destruct (Hmake s) as [Hid Href].
    destruct (make s) as [a s1]. cbn [fst snd] in Hid, Href.
    destruct (IH s1) as [Hids Hr].
    destruct (Array_from n make s1) as [rest s2]. unfold ret.
    cbn [fst snd map] in *.
    rewrite Hids, Hid, Hr, Href. split; [reflexivity | lia].
Qed.

(** *** Where fresh particles start *)

Lemma ambientParticle_value s :
  fst (ambientParticle s)
  = Particle.mk (particleIdRef s)
                (random s (randomIx s) * 400)
                (random s (S (randomIx s)) * 300 + 100)
                ((random s (S (S (randomIx s))) - 0.5) * 2)
                (- random s (S (S (S (randomIx s)))) * 2 - 1).
Proof. reflexivity. Qed.

Lemma explosionParticle_value s :
  fst (explosionParticle s)
  = Particle.mk (particleIdRef s)
                (200 + (random s (randomIx s) - 0.5) * 100)
                (300 + (random s (S (randomIx s)) - 0.5) * 100)
                ((random s (S (S (randomIx s))) - 0.5) * 8)
                (- random s (S (S (S (randomIx s)))) * 6 - 3).
Proof. reflexivity. Qed.

Lemma ambientParticle_range s :
  oracleInUnit (random s) -> ambientRange (fst (ambientParticle s)).
Proof.
  intro Hr. rewrite ambientParticle_value. unfold ambientRange.
  cbn [Particle.x Particle.y Particle.vx Particle.vy].
  pose proof (Hr (randomIx s)). pose proof (Hr (S (randomIx s))).
  pose proof (Hr (S (S (randomIx s)))).
  pose proof (Hr (S (S (S (randomIx s))))).
  repeat split; lra.
Qed.

Lemma explosionParticle_range s :
  oracleInUnit (random s) -> explosionRange (fst (explosionParticle s)).
Proof.
  intro Hr. rewrite explosionParticle_value. unfold explosionRange.
  cbn [Particle.x Particle.y Particle.vx Particle.vy].
  pose proof (Hr (randomIx s)). pose proof (Hr (S (randomIx s))).
  pose proof (Hr (S (S (randomIx s)))).
  pose proof (Hr (S (S (S (randomIx s))))).
  repeat split; lra.
Qed.

Lemma Array_from_Forall (R : Particle.t -> Prop) make n s :
  (forall s0, sameButCounters s0 (snd (make s0))) ->
  (forall s0, oracleInUnit (random s0) -> R (fst (make s0))) ->
  oracleInUnit (random s) -> Forall R (fst (Array_from n make s)).
Proof.
  intros Hfr HR. revert s. induction n as [|n IH]; intros s Hr; simpl.
  - constructor.
  - unfold bind. specialize (HR s Hr). specialize (Hfr s).
    destruct (make s) as [a s1]. cbn [fst snd] in HR, Hfr.
    assert (oracleInUnit (random s1)) as Hr1.
    { destruct Hfr as (_ & _ & _ & _ & _ & _ & _ & _ & Hrnd & _).
      now rewrite Hrnd. }
    specialize (IH s1 Hr1).
    destruct (Array_from n make s1) as [rest s2]. unfold ret.
    cbn [fst snd] in *. now constructor.
Qed.

(** What a burst does to the list, the counter and the oracle. *)
Lemma createParticleBurst_shape s :
  exists fresh,
    particles (createParticleBurst s)
    = JS.slice_last 20 (particles s ++ fresh)
    /\ map Particle.id fresh = seq (particleIdRef s) 3
    /\ particleIdRef (createParticleBurst s) = (particleIdRef s + 3)%nat
    /\ random (createParticleBurst s) = random s
    /\ (oracleInUnit (random s) -> Forall ambientRange fresh).
Proof.
  unfold createParticleBurst.
  pose proof (Array_from_frame ambientParticle ambientParticle_frame 3 s)
    as Hfr.
  pose proof (Array_from_ids ambientParticle 3 s ambientParticle_fresh)
    as [Hids Href].
  pose proof (Array_from_Forall ambientRange ambientParticle 3 s
                                ambientParticle_frame ambientParticle_range)
    as Hrange.
  destruct (Array_from 3 ambientParticle s) as [fresh s'].
  cbn [fst snd] in *.
  destruct Hfr as (_ & _ & _ & Hp & _ & _ & _ & _ & Hrnd & _).
  exists fresh. cbn [particles particleIdRef random setParticles].
  rewrite Hp. repeat split; assumption.
Qed.

(** What a click on the card does to the list, the counter and the
    oracle. *)
Lemma handleCardClick_shape now e s :
  let s' := snd (handleCardClick now e s) in
  exists fresh,
    particles s' = particles s ++ fresh
    /\ map Particle.id fresh = seq (particleIdRef s) 15
    /\ particleIdRef s' = (particleIdRef s + 15)%nat
    /\ random s' = random s
    /\ (oracleInUnit (random s) -> Forall explosionRange fresh).
Proof.
  unfold handleCardClick.
  set (s4 := setTimeouts _ _).
  assert (particles s4 = particles s /\ particleIdRef s4 = particleIdRef s
          /\ random s4 = random s) as (Hp4 & Hi4 & Hr4)
      by (repeat split).
  pose proof (Array_from_frame explosionParticle explosionParticle_frame
                               15 s4) as Hfr.
  pose proof (Array_from_ids explosionParticle 15 s4 explosionParticle_fresh)
    as [Hids Href].
  pose proof (Array_from_Forall explosionRange explosionParticle 15 s4
                explosionParticle_frame explosionParticle_range) as Hrange.
  destruct (Array_from 15 explosionParticle s4) as [fresh s5].
  cbn [fst snd] in *.
  destruct Hfr as (_ & _ & _ & Hp & _ & _ & _ & _ & Hrnd & _).
  exists fresh. cbn [particles particleIdRef random setParticles].
  rewrite Hp, Hp4, Href, Hi4, Hrnd, Hr4, Hids, Hi4.
  repeat split. intro Hr. apply Hrange. now rewrite Hr4.
Qed.

(** What one input can do to the particle list. *)
Lemma handle_particle_cases title now i s :
  let s' := handle title now i s in
  (particles s' = particles s /\ particleIdRef s' = particleIdRef s
   /\ random s' = random s)
  \/ (exists s0, sameParticleView s s0 /\ s' = createParticleBurst s0)
  \/ (exists e, s' = snd (handleCardClick now e s))
  \/ (particles s' = [] /\ particleIdRef s' = particleIdRef s
      /\ random s' = random s)
  \/ (particles s' = animateParticles (particles s)
      /\ particleIdRef s' = particleIdRef s /\ random s' = random s).
Proof.
  destruct i as [cardRef e| | |target newWindow| | |b| |]; cbn [handle].
  - unfold handleMouseMove.
    destruct cardRef as [rect|]; [|left; repeat split].
    destruct (isFlipped s); [left; repeat split|].
    set (s1 := setMouse _ _ s).
    destruct (isHovered s1); [|left; repeat split].
    unfold Math_random. destruct (JS.gtb _ _); [|left; repeat split].
    right; left. eexists. split; [|reflexivity]. repeat split.
  - right; left. unfold handleMouseEnter. eexists.
    split; [|reflexivity]. repeat split.
  - right; right; right; left. repeat split.
  - destruct target.
    + right; right; left. exists {| propagationStopped := false |}.
      unfold dispatchClick. reflexivity.
    + left. rewrite dispatchClick_register.
      destruct (registerOnClick_frame title newWindow
                  {| propagationStopped := false |} s)
        as (_ & Hp & Hi & _).
      split; [exact Hp|]. split; [exact Hi|].
      unfold registerOnClick.
      destruct (eventUrlFor title); [destruct newWindow|]; reflexivity.
  - left. repeat split.
  - left. repeat split.
  - left. repeat split.
  - destruct (isHovered s || isFocused s); [|left; repeat split].
    right; left. exists s. split; [repeat split | reflexivity].
  - destruct (particles s) as [|p ps] eqn:E.
    + left. split; [exact E | split; reflexivity].
    + right; right; right; right.
      cbn [particles particleIdRef random setParticles].
      rewrite E. repeat split.
Qed.

Lemma fireTimeouts_particle_view now s :
  sameParticleView s (fireTimeouts now s).
Proof.
  unfold fireTimeouts. rewrite fold_setIsFlipping_false.
  destruct (filter (fun d => (d <=? now)%Z) (timeouts s)); repeat split.
Qed.

(** *** The invariants, one input at a time *)

Lemma ambientRange_visible q : ambientRange q -> visible q.
Proof. unfold ambientRange, visible. intros. lra. Qed.

Lemma explosionRange_visible q : explosionRange q -> visible q.
Proof. unfold explosionRange, visible. intros. lra. Qed.

Lemma Forall_skipn_keep (A : Type) (P : A -> Prop) k (l : list A) :
  Forall P l -> Forall P (skipn k l).
Proof.
  intro H. apply Forall_forall. intros x Hx.
  rewrite Forall_forall in H. apply H.
  rewrite <- (firstn_skipn k l). apply in_or_app. now right.
Qed.

Lemma step_idsOrdered title ti s :
  idsOrdered s -> idsOrdered (step title ti s).
Proof.
  unfold step, idsOrdered, particleIds. intro H.
  destruct (fireTimeouts_particle_view (fst ti) s) as (Hp0 & Hi0 & _).
  set (s0 := fireTimeouts (fst ti) s) in *.
  rewrite <- Hp0, <- Hi0 in H. clearbody s0.
  destruct (handle_particle_cases title (fst ti) (snd ti) s0)
    as [(Hp & Hi & _)|[(s1 & (Hp1 & Hi1 & _) & ->)|[(e & ->)
       |[(Hp & Hi & _)|(Hp & Hi & _)]]]].
  - now rewrite Hp, Hi.
  - rewrite <- Hp1, <- Hi1 in H.
    destruct (createParticleBurst_shape s1) as (fresh & Hp & Hids & Hi & _).
    rewrite Hp, Hi. unfold JS.slice_last. rewrite <- skipn_map.
    apply idsWithin_skipn. rewrite map_app, Hids.
    apply (idsWithin_app 0 (particleIdRef s1)); [assumption|].
    apply idsWithin_seq.
  - destruct (handleCardClick_shape (fst ti) e s0)
      as (fresh & Hp & Hids & Hi & _).
    rewrite Hp, Hi, map_app, Hids.
    apply (idsWithin_app 0 (particleIdRef s0)); [assumption|].
    apply idsWithin_seq.
  - rewrite Hp, Hi. simpl. lia.
  - rewrite Hp, Hi. now apply idsWithin_animate.
Qed.

Lemma step_allVisible title ti s :
  allVisible s -> allVisible (step title ti s).
Proof.
  unfold step, allVisible. intro H.
  destruct (fireTimeouts_particle_view (fst ti) s) as (Hp0 & _ & Hr0).
  set (s0 := fireTimeouts (fst ti) s) in *.
  rewrite <- Hp0, <- Hr0 in H. clearbody s0.
  destruct (handle_particle_cases title (fst ti) (snd ti) s0)
    as [(Hp & _ & Hr)|[(s1 & (Hp1 & _ & Hr1) & ->)|[(e & ->)
       |[(Hp & _ & Hr)|(Hp & _ & Hr)]]]].
  - now rewrite Hp, Hr.
  - rewrite <- Hp1, <- Hr1 in H.
    destruct (createParticleBurst_shape s1)
      as (fresh & Hp & _ & _ & Hr & Hrange).
    rewrite Hp, Hr. intro Ho. unfold JS.slice_last.
    apply Forall_skipn_keep. apply Forall_app. split; [now apply H|].
    eapply Forall_impl; [apply ambientRange_visible | now apply Hrange].
  - destruct (handleCardClick_shape (fst ti) e s0)
      as (fresh & Hp & _ & _ & Hr & Hrange).
    rewrite Hp, Hr. intro Ho. apply Forall_app. split; [now apply H|].
    eapply Forall_impl; [apply explosionRange_visible | now apply Hrange].
  - rewrite Hp. constructor.
  - rewrite Hp. intros _. unfold animateParticles.
    apply Forall_forall. intros q Hq. apply filter_In in Hq.
    now apply inBounds_visible.
Qed.

Lemma step_random title ti s : random (step title ti s) = random s.
Proof.
  unfold step.
  destruct (fireTimeouts_particle_view (fst ti) s) as (_ & _ & Hr0).
  rewrite <- Hr0.
  destruct (handle_particle_cases title (fst ti) (snd ti)
                                  (fireTimeouts (fst ti) s))
    as [(_ & _ & Hr)|[(s1 & (_ & _ & Hr1) & ->)|[(e & ->)
       |[(_ & _ & Hr)|(_ & _ & Hr)]]]].
  - assumption.
  - destruct (createParticleBurst_shape s1) as (fresh & _ & _ & _ & Hr & _).
    congruence.
  - destruct (handleCardClick_shape (fst ti) e (fireTimeouts (fst ti) s))
      as (fresh & _ & _ & _ & Hr & _).
    exact Hr.
  - assumption.
  - assumption.
Qed.

Lemma run_random title trace s : random (run title trace s) = random s.
Proof.
  unfold run. revert s.
  induction trace as [|ti trace IH]; intro s; cbn [fold_left];
    [reflexivity|].
  rewrite IH. apply step_random.
Qed.

Lemma run_idsOrdered title trace s :
  idsOrdered s -> idsOrdered (run title trace s).
Proof.
  unfold run. revert s.
  induction trace as [|ti trace IH]; intros s H; cbn [fold_left];
    [assumption|].
  apply IH. now apply step_idsOrdered.
Qed.

Lemma run_allVisible title trace s :
  allVisible s -> allVisible (run title trace s).
Proof.
  unfold run. revert s.
  induction trace as [|ti trace IH]; intros s H; cbn [fold_left];
    [assumption|].
  apply IH. now apply step_allVisible.
Qed.

(** X3: whatever the inputs, the ids of the live particles are strictly
    increasing along the list and below the id counter; in particular no
    two live particles share an id (the ids are the React keys of the
    particle elements). *)
Theorem particle_ids_increasing_and_distinct
        (title : string) (trace : list (Z * Input)) (rnd : nat -> Q) :
  let s := run title trace (initial rnd) in
  idsWithin 0 (particleIdRef s) (particleIds s) /\ NoDup (particleIds s).
Proof.
  intro s.
  assert (idsOrdered s) as H.
  { apply run_idsOrdered. unfold idsOrdered, particleIds. simpl. lia. }
  split; [exact H|]. exact (idsWithin_NoDup _ _ _ H).
Qed.

(** X4: with [Math.random] in [0, 1), every live particle is inside the visible
    bounds after any sequence of inputs: bursts and explosions spawn inside
    them and the integration step removes what leaves them. *)
Theorem live_particles_stay_in_bounds
        (title : string) (trace : list (Z * Input)) (rnd : nat -> Q) :
  oracleInUnit rnd ->
  Forall visible (particles (run title trace (initial rnd))).
Proof.
  intro Hr.
  assert (allVisible (run title trace (initial rnd))) as H.
  { apply run_allVisible. intros _. constructor. }
  apply H. now rewrite run_random.
Qed.

Lemma live_particles_stay_in_bounds_witness :
  Forall visible
         (particles
            (run "Ventura"
                 [(0, ParentHover true); (0, PointerEnter); (16, Frame);
                  (100, Click CardSurface false); (116, Frame)]%Z
                 (initial (fun _ => 0.5)))).
Proof.
  apply (live_particles_stay_in_bounds
           "Ventura"
           [(0, ParentHover true); (0, PointerEnter); (16, Frame);
            (100, Click CardSurface false); (116, Frame)]%Z
           (fun _ => 0.5)).
  intro n. split; lra.
Defined.

(** X5: with [Math.random] in [0, 1), the particles a burst adds start on
    the front face (x in [0, 400], y in [100, 400]) and those a click adds
    start around the centre (x in [150, 250], y in [250, 350]); both kinds
    start moving upwards (vy in [-3, -1] and [-9, -3]). *)
Theorem fresh_particles_start_inside_moving_up
        (now : Z) (e : ClickEvent) (s : Card) :
  oracleInUnit (random s) ->
  (forall q, In q (particles (createParticleBurst s)) ->
             In q (particles s) \/ ambientRange q)
  /\ (forall q, In q (particles (snd (handleCardClick now e s))) ->
                In q (particles s) \/ explosionRange q).
Proof.
  intro Hr. split; intros q Hq.
  - destruct (createParticleBurst_shape s) as (fresh & Hp & _ & _ & _ & Hf).
    rewrite Hp in Hq. unfold JS.slice_last in Hq.
    assert (In q (particles s ++ fresh)) as Hin.
    { rewrite <- (firstn_skipn (List.length (particles s ++ fresh) - 20)
                               (particles s ++ fresh)).
      apply in_or_app. now right. }
    apply in_app_or in Hin. destruct Hin as [Hin|Hin]; [now left|].
    right. specialize (Hf Hr). rewrite Forall_forall in Hf. now apply Hf.
  - destruct (handleCardClick_shape now e s) as (fresh & Hp & _ & _ & _ & Hf).
    rewrite Hp in Hq. apply in_app_or in Hq.
    destruct Hq as [Hin|Hin]; [now left|].
    right. specialize (Hf Hr). rewrite Forall_forall in Hf. now apply Hf.
Qed.

Lemma fresh_particles_start_inside_moving_up_witness :
  oracleInUnit (random (initial (fun _ => 0.25)))
  /\ (forall q,
         In q (particles (createParticleBurst (initial (fun _ => 0.25)))) ->
         In q (particles (initial (fun _ => 0.25))) \/ ambientRange q).
Proof.
  assert (oracleInUnit (random (initial (fun _ => 0.25)))) as Hr
      by (intro n; cbn [random initial]; split; lra).
  split; [exact Hr|].
  exact (proj1 (fresh_particles_start_inside_moving_up
                  0%Z {| propagationStopped := false |}
                  (initial (fun _ => 0.25)) Hr)).
Defined.

End ParticleLaws.

(** ** EventCard3D: the frame loop empties the particle list *)

Module FrameLaws.

Import EventCard3D CardSpec CardFacts CardLaws.
Local Open Scope Q_scope.

Lemma inject_nat_succ k :
  inject_Z (Z.of_nat (S k)) == inject_Z (Z.of_nat k) + 1.
Proof.
  rewrite Nat2Z.inj_succ. unfold Z.succ. now rewrite inject_Z_plus.
Qed.

(** Closed form of [k] integration steps of one particle. *)
Lemma trajectory k p :
  let K := inject_Z (Z.of_nat k) in
  Particle.vy (Nat.iter k advance p) == Particle.vy p + 0.2 * K
  /\ Particle.y (Nat.iter k advance p)
     == Particle.y p + K * Particle.vy p + 0.1 * K * (K - 1).
Proof.
  induction k as [|k [IHv IHy]].
  - cbn. split; ring.
  - cbv zeta in *. rewrite inject_nat_succ.
    cbn [Nat.iter nat_rect advance Particle.vy Particle.y].
    rewrite IHv, IHy. split; ring.
Qed.

Lemma Qpos_part_spec a : 0 <= Qpos_part a /\ a <= Qpos_part a.
Proof.
  unfold Qpos_part. destruct (Qle_bool 0 a) eqn:E.
  - apply Qle_bool_iff in E. split; lra.
  - assert (~ 0 <= a) as H
        by (intro H; apply Qle_bool_iff in H; congruence).
    split; lra.
Qed.

Lemma lifetime_steps p :
  let c := 10 * (Qpos_part (- Particle.vy p)
                 + Qpos_part (600 - Particle.y p)) in
  c + 2 <= inject_Z (Z.of_nat (lifetime p)).
Proof.
  intro c. unfold lifetime. fold c. rewrite !inject_nat_succ.
  assert (0 <= c) as Hc.
  { unfold c. pose proof (Qpos_part_spec (- Particle.vy p)).
    pose proof (Qpos_part_spec (600 - Particle.y p)). lra. }
  assert (0 <= Qceiling c)%Z as Hz.
  { rewrite <- (Qceiling_Z 0). apply Qceiling_resp_le. exact Hc. }
  rewrite Z2Nat.id by assumption.
  pose proof (Qle_ceiling c). lra.
Qed.

(** After [lifetime p] steps the particle is at or below the lower bound. *)
Lemma lifetime_reaches_floor p :
  600 <= Particle.y (Nat.iter (lifetime p) advance p).
Proof.
  destruct (trajectory (lifetime p) p) as [_ Hy]. rewrite Hy.
  pose proof (lifetime_steps p) as HK. cbv zeta in HK.
  set (K := inject_Z (Z.of_nat (lifetime p))) in *.
  pose proof (Qpos_part_spec (- Particle.vy p)) as [Ha0 Ha].
  pose proof (Qpos_part_spec (600 - Particle.y p)) as [Hb0 Hb].
  set (a := Qpos_part (- Particle.vy p)) in *.
  set (b := Qpos_part (600 - Particle.y p)) in *.
  assert (0 <= K * (Particle.vy p + a)) as H1
      by (apply Qmult_le_0_compat; lra).
  assert (0 <= K * (0.1 * (K - 1) - a - b)) as H2
      by (apply Qmult_le_0_compat; lra).
  assert (0 <= (K - 1) * b) as H3
      by (apply Qmult_le_0_compat; lra).
  lra.
Qed.

Lemma lifetime_out p : inBounds (Nat.iter (lifetime p) advance p) = false.
Proof.
  unfold inBounds.
  assert (JS.ltb (Particle.y (Nat.iter (lifetime p) advance p)) 600 = false)
    as -> by (apply ltb_ge; apply lifetime_reaches_floor).
  reflexivity.
Qed.

Lemma frames_nil n : frames n [] = [].
Proof. induction n as [|n IH]; [reflexivity | exact IH]. Qed.

Lemma animateParticles_app a b :
  animateParticles (a ++ b) = animateParticles a ++ animateParticles b.
Proof.
  unfold animateParticles. now rewrite map_app, filter_app.
Qed.

Lemma frames_app n a b : frames n (a ++ b) = frames n a ++ frames n b.
Proof.
  revert a b. induction n as [|n IH]; intros a b; cbn [frames];
    [reflexivity|].
  now rewrite animateParticles_app, IH.
Qed.

(** A particle that is out of bounds at some step is gone from then on. *)
Lemma frames_single_out n k p :
  (1 <= k <= n)%nat -> inBounds (Nat.iter k advance p) = false ->
  frames n [p] = [].
Proof.
  revert k p. induction n as [|n IH]; intros k p Hk Hout; [lia|].
  cbn [frames]. unfold animateParticles. cbn [map filter].
  destruct (inBounds (advance p)) eqn:E; [|apply frames_nil].
  destruct k as [|[|k]]; [lia | cbn in Hout; congruence |].
  apply (IH (S k)); [lia|].
  rewrite Nat.iter_succ_r in Hout. exact Hout.
Qed.

Lemma frames_clear ps n :
  (framesToClear ps <= n)%nat -> frames n ps = [].
Proof.
  induction ps as [|p ps IH]; intro Hn; [apply frames_nil|].
  unfold framesToClear in *. cbn [map fold_right] in Hn.
  change (p :: ps) with ([p] ++ ps). rewrite frames_app.
  rewrite IH by lia.
  rewrite (frames_single_out n (lifetime p) p);
    [reflexivity | unfold lifetime in *; lia | apply lifetime_out].
Qed.

Lemma step_frame_particles title t s :
  particles (step title (t, Frame) s) = animateParticles (particles s).
Proof.
  unfold step. cbn [fst snd handle].
  destruct (fireTimeouts_fields t s) as (_ & Hp & _).
  destruct (particles (fireTimeouts t s)) as [|p ps] eqn:E.
  - rewrite E, <- Hp. reflexivity.
  - cbn [particles setParticles]. now rewrite E, Hp.
Qed.

Lemma run_frames title trace s :
  forallb (fun ti => isFrame (snd ti)) trace = true ->
  particles (run title trace s) = frames (List.length trace) (particles s).
Proof.
  unfold run. revert s.
  induction trace as [|[t i] trace IH]; intros s Hall;
    cbn [fold_left List.length frames]; [reflexivity|].
  cbn [forallb snd] in Hall. apply andb_true_iff in Hall.
  destruct Hall as [Hi Hall]. destruct i; try discriminate Hi.
  rewrite (IH _ Hall). now rewrite step_frame_particles.
Qed.

Lemma lifetime_moderate p :
  moderate p -> (Z.of_nat (lifetime p) <= 26002)%Z.
Proof.
  intros [[Hy1 Hy2] [Hv1 Hv2]]. unfold lifetime.
  set (c := 10 * (Qpos_part (- Particle.vy p)
                  + Qpos_part (600 - Particle.y p))).
  assert (c <= 26000) as Hc.
  { unfold c, Qpos_part.
    destruct (Qle_bool 0 (- Particle.vy p));
      destruct (Qle_bool 0 (600 - Particle.y p)); lra. }
  assert (Qceiling c <= 26000)%Z as Hz.
  { rewrite <- (Qceiling_Z 26000). apply Qceiling_resp_le. exact Hc. }
  lia.
Qed.

Lemma framesToClear_moderate ps :
  Forall moderate ps -> (Z.of_nat (framesToClear ps) <= 26002)%Z.
Proof.
  unfold framesToClear. induction 1 as [|p ps Hp _ IH];
    cbn [map fold_right]; [lia|].
  pose proof (lifetime_moderate p Hp). lia.
Qed.

(** X6: the frame loop terminates for particles of moderate height and
    speed: if every particle has [y] and [vy] within 1000 of zero, gravity
    takes each below the lower bound, so a run of [framesToClear] frames (or
    more) with no other input empties the particle list; [framesToClear]
    is at most 26002 for such a list. *)
Theorem frame_loop_empties_particle_list
        (title : string) (trace : list (Z * Input)) (s : Card) :
  Forall moderate (particles s) ->
  forallb (fun ti => isFrame (snd ti)) trace = true ->
  (Z.of_nat (framesToClear (particles s)) <= 26002)%Z
  /\ ((framesToClear (particles s) <= List.length trace)%nat ->
      particles (run title trace s) = []).
Proof.
  intros Hmod Hall. split; [now apply framesToClear_moderate|].
  intro Hn. rewrite (run_frames title trace s Hall).
  now apply frames_clear.
Qed.

Lemma frame_loop_empties_particle_list_witness :
  let rising := Particle.mk 7 200 590 0 (-3) in
  let s := setParticles (fun _ => [rising]) (initial (fun _ => 0.5)) in
  let trace := map (fun k => (16 * Z.of_nat k, Frame))%Z (seq 1 150) in
  particles (run "Ventura" trace s) = [].
Proof.
  cbv zeta.
  refine (proj2 (frame_loop_empties_particle_list "Ventura" _ _ _ _) _).
  - constructor; [|constructor].
    unfold moderate. simpl. repeat split; lra.
  - vm_compute. reflexivity.
  - vm_compute. lia.
Defined.

End FrameLaws.

(** ** EventCard3D: flips, the lock and the pointer over whole traces *)

Module FlipLaws.

Import EventCard3D CardSpec CardFacts CardLaws.

Lemma step_flip title ti s :
  isFlipped (step title ti s) = xorb (isFlipped s) (isCardClick (snd ti)).
Proof.
  unfold step.
  destruct (fireTimeouts_fields (fst ti) s) as (Hf & _).
  rewrite <- Hf.
  destruct (isCardClick (snd ti)) eqn:Hc.
  - destruct (snd ti) as [| | |[|] newWindow| | | | |]; try discriminate Hc.
    change (handle title (fst ti) (Click CardSurface newWindow)
                   (fireTimeouts (fst ti) s))
      with (snd (handleCardClick (fst ti) {| propagationStopped := false |}
                                 (fireTimeouts (fst ti) s))).
    destruct (handleCardClick_flip (fst ti) {| propagationStopped := false |}
                                   (fireTimeouts (fst ti) s)) as (H & _).
    rewrite H. now rewrite xorb_true_r.
  - destruct (handle_sameFlip title (fst ti) (snd ti)
                              (fireTimeouts (fst ti) s) Hc) as (H & _).
    rewrite H. now rewrite xorb_false_r.
Qed.

(** X7: the face a card shows depends only on how many times its surface was
    clicked: after any sequence of inputs [flipped] is the initial value
    flipped once per click on the card, whatever else happened (moves,
    hovers, focus, frames, timers, Register clicks). *)
Theorem flipped_is_parity_of_card_clicks
        (title : string) (trace : list (Z * Input)) (s : Card) :
  isFlipped (run title trace s)
  = xorb (isFlipped s) (Nat.odd (cardClicks trace)).
Proof.
  unfold run, cardClicks. revert s.
  induction trace as [|ti trace IH]; intro s; cbn [fold_left filter].
  - cbn. now rewrite xorb_false_r.
  - rewrite IH, step_flip.
    destruct (isCardClick (snd ti)); cbn [List.length].
    + rewrite Nat.odd_succ, <- Nat.negb_odd.
      destruct (isFlipped s), (Nat.odd _); reflexivity.
    + now rewrite xorb_false_r.
Qed.

Lemma filter_none_due now (l : list Z) :
  existsb (fun d => (d <=? now)%Z) l = false ->
  filter (fun d => negb (d <=? now)%Z) l = l.
Proof.
  induction l as [|d l IH]; intro H; cbn [filter existsb] in *;
    [reflexivity|].
  apply orb_false_iff in H. destruct H as [Hd Hl].
  rewrite Hd. cbn [negb]. now rewrite IH.
Qed.

Lemma fireTimeouts_resetsPendingBy limit now s :
  resetsPendingBy limit s -> resetsPendingBy limit (fireTimeouts now s).
Proof.
  intros [Hall Hon].
  destruct (fireTimeouts_fields now s) as (_ & _ & Ht & Hf).
  split.
  - intros d Hd. rewrite Ht in Hd. apply filter_In in Hd. apply Hall. tauto.
  - rewrite Hf, Ht.
    destruct (existsb (fun d => (d <=? now)%Z) (timeouts s)) eqn:E;
      [discriminate|].
    rewrite (filter_none_due now (timeouts s) E). exact Hon.
Qed.

Lemma step_resetsPendingBy title limit ti s :
  (fst ti + 800 <= limit)%Z ->
  resetsPendingBy limit s -> resetsPendingBy limit (step title ti s).
Proof.
  intros Hlim H. unfold step.
  apply (fireTimeouts_resetsPendingBy limit (fst ti)) in H.
  set (s0 := fireTimeouts (fst ti) s) in *. clearbody s0.
  destruct H as [Hall Hon].
  destruct (isCardClick (snd ti)) eqn:Hc.
  - destruct (snd ti) as [| | |[|] newWindow| | | | |]; try discriminate Hc.
    change (handle title (fst ti) (Click CardSurface newWindow) s0)
      with (snd (handleCardClick (fst ti) {| propagationStopped := false |}
                                 s0)).
    destruct (handleCardClick_flip (fst ti) {| propagationStopped := false |}
                                   s0) as (_ & _ & Ht).
    split.
    + intros d Hd. rewrite Ht in Hd. apply in_app_or in Hd.
      destruct Hd as [Hd|[<-|[]]]; [now apply Hall | exact Hlim].
    + intros _. rewrite Ht. intro Hnil. apply app_eq_nil in Hnil.
      destruct Hnil as [_ Hnil]. discriminate Hnil.
  - destruct (handle_sameFlip title (fst ti) (snd ti) s0 Hc)
      as (_ & Hf & Ht).
    split; [now rewrite Ht | now rewrite Hf, Ht].
Qed.

(** X8: the flip lock is always released: once 800 ms have passed since the
    last input, no reset is pending any more and [flipping] is false,
    however many clicks there were and however they overlapped. *)
Theorem flip_lock_released_after_last_input
        (title : string) (trace : list (Z * Input)) (rnd : nat -> Q)
        (limit : Z) :
  (forall ti, In ti trace -> (fst ti + 800 <= limit)%Z) ->
  let s := run title trace (initial rnd) in
  flippingAt limit s = false /\ timeouts (fireTimeouts limit s) = [].
Proof.
  intros Hlim s.
  assert (resetsPendingBy limit s) as [Hall Hon].
  { subst s. unfold run.
    assert (resetsPendingBy limit (initial rnd)) as H0.
    { split; [intros d []| discriminate]. }
    revert H0. generalize (initial rnd).
    induction trace as [|ti trace IH]; intros s0 H0; cbn [fold_left];
      [assumption|].
    apply IH; [intros tj Hj; apply Hlim; now right|].
    apply step_resetsPendingBy; [apply Hlim; now left | assumption]. }
  unfold flippingAt.
  destruct (fireTimeouts_fields limit s) as (_ & _ & Ht & Hf).
  rewrite Hf, Ht. split.
  - destruct (existsb (fun d => (d <=? limit)%Z) (timeouts s)) eqn:E;
      [reflexivity|].
    rewrite (filter_none_due limit _ E) in Ht.
    destruct (isFlipping s) eqn:Efl; [|reflexivity].
    specialize (Hon eq_refl).
    destruct (timeouts s) as [|d l] eqn:El; [congruence|].
    cbn [existsb] in E. apply orb_false_iff in E. destruct E as [Ed _].
    apply Z.leb_gt in Ed. specialize (Hall d (or_introl eq_refl)). lia.
  - destruct (filter (fun d => negb (d <=? limit)%Z) (timeouts s))
      as [|d l] eqn:El; [reflexivity|].
    assert (In d (filter (fun d => negb (d <=? limit)%Z) (timeouts s)))
      as Hin by (rewrite El; now left).
    apply filter_In in Hin. destruct Hin as [Hin Hd].
    apply negb_true_iff, Z.leb_gt in Hd. specialize (Hall d Hin). lia.
Qed.

Lemma flip_lock_released_after_last_input_witness :
  let s := run "Ventura" [(0, Click CardSurface false);
                          (500, Click CardSurface false);
                          (650, Click CardSurface false)]%Z
               (initial (fun _ => 0.5%Q)) in
  flippingAt 1450 s = false /\ timeouts (fireTimeouts 1450 s) = [].
Proof.
  apply (flip_lock_released_after_last_input
           "Ventura"
           [(0, Click CardSurface false); (500, Click CardSurface false);
            (650, Click CardSurface false)]%Z
           (fun _ => 0.5%Q) 1450%Z).
  intros ti [<-|[<-|[<-|[]]]]; simpl; lia.
Defined.

Local Open Scope Q_scope.

Lemma createParticleBurst_mouse s :
  mouseX (createParticleBurst s) = mouseX s
  /\ mouseY (createParticleBurst s) = mouseY s.
Proof.
  unfold createParticleBurst.
  pose proof (Array_from_frame ambientParticle ambientParticle_frame 3 s)
    as Hfr.
  destruct (Array_from 3 ambientParticle s) as [newParticles s'].
  cbn [fst snd] in Hfr.
  destruct Hfr as (_ & _ & _ & _ & Hx & Hy & _).
  split; assumption.
Qed.

Lemma handleMouseMove_mouse rect e s :
  isFlipped s = false ->
  let s' := handleMouseMove (Some rect) e s in
  mouseX s' = (clientX e - (left rect + width rect / 2)) / (width rect / 2)
  /\ mouseY s'
     = (clientY e - (top rect + height rect / 2)) / (height rect / 2).
Proof.
  intro Hf. unfold handleMouseMove. rewrite Hf.
  set (s1 := setMouse _ _ s).
  destruct (isHovered s1); [|split; reflexivity].
  unfold Math_random. destruct (JS.gtb _ _); [|split; reflexivity].
  destruct (createParticleBurst_mouse (setRandomIx (S (randomIx s1)) s1))
    as [Hx Hy].
  rewrite Hx, Hy. split; reflexivity.
Qed.

Lemma offset_sign c h x :
  0 < h ->
  (c <= x -> 0 <= (x - c) / h) /\ (x <= c -> (x - c) / h <= 0).
Proof.
  intro Hh. split; intro Hx.
  - apply Qle_shift_div_l; [assumption | lra].
  - apply Qle_shift_div_r; [assumption | lra].
Qed.

(** X9: while the card is not flipped, a pointer move stores offsets whose
    sign tells the side of the centre the pointer is on: for a rectangle at
    least one pixel wide and high, [mouseX] is not negative when [clientX]
    is at or right of the centre and not positive when it is at or left of
    it, likewise [mouseY] below and above the centre, and a pointer on the
    centre stores 0; the same holds when the move sets off a burst. *)
Theorem pointer_offset_sign_follows_side
        (rect : Rect) (e : MouseEvent) (s : Card) :
  1 <= width rect -> 1 <= height rect -> isFlipped s = false ->
  let s' := handleMouseMove (Some rect) e s in
  let centerX := left rect + width rect / 2 in
  let centerY := top rect + height rect / 2 in
  ((centerX <= clientX e -> 0 <= mouseX s')
   /\ (clientX e <= centerX -> mouseX s' <= 0))
  /\ ((centerY <= clientY e -> 0 <= mouseY s')
      /\ (clientY e <= centerY -> mouseY s' <= 0))
  /\ (clientX e == centerX -> mouseX s' == 0)
  /\ (clientY e == centerY -> mouseY s' == 0).
Proof.
  intros Hw Hh Hf s' centerX centerY.
  destruct (handleMouseMove_mouse rect e s Hf) as [Ex Ey].
  fold s' centerX in Ex. fold s' centerY in Ey. rewrite Ex, Ey.
  assert (0 < width rect / 2) as Hw2
      by (apply Qlt_shift_div_l; lra).
  assert (0 < height rect / 2) as Hh2
      by (apply Qlt_shift_div_l; lra).
  destruct (offset_sign centerX (width rect / 2) (clientX e) Hw2)
    as [Hx1 Hx2].
  destruct (offset_sign centerY (height rect / 2) (clientY e) Hh2)
    as [Hy1 Hy2].
  split; [split; assumption|]. split; [split; assumption|].
  split; intro E.
  - apply Qle_antisym; [apply Hx2 | apply Hx1]; lra.
  - apply Qle_antisym; [apply Hy2 | apply Hy1]; lra.
Qed.

Lemma pointer_offset_sign_follows_side_witness :
  let rect := {| left := 100; top := 50; width := 400; height := 600 |} in
  let e := {| clientX := 450; clientY := 120 |} in
  let s' := handleMouseMove (Some rect) e
                            (setIsHovered true (initial (fun _ => 0.99))) in
  0 <= mouseX s' /\ mouseY s' <= 0.
Proof.
  destruct (pointer_offset_sign_follows_side
              {| left := 100; top := 50; width := 400; height := 600 |}
              {| clientX := 450; clientY := 120 |}
              (setIsHovered true (initial (fun _ => 0.99))))
    as ((Hx & _) & (_ & Hy) & _).
  - simpl. lra.
  - simpl. lra.
  - reflexivity.
  - split; [apply Hx | apply Hy]; vm_compute; intro H; discriminate H.
Defined.

End FlipLaws.

(** ** AnimatedSection: what starts the transition, and the variants *)

Module SectionLawsFacts.

Import Motion AnimatedSection SectionSpec SectionLaws.
Local Open Scope nat_scope.

Lemma onEntry_paired p o b s : paired p s -> paired p (onEntry p o b s).
Proof.
  intros [H0 H1]. unfold onEntry.
  destruct (b && negb (sawHasAnimated o)); [|split; assumption].
  unfold callOnAnimationStart.
  destruct (Props.onAnimationStart p) eqn:E; split; cbn.
  - intro H. discriminate H.
  - intros _. rewrite (H1 eq_refl). lia.
  - intro H. discriminate H.
  - intro H. congruence.
Qed.

Lemma observerCallback_paired p o entries s :
  paired p s -> paired p (observerCallback p o entries s).
Proof.
  unfold observerCallback. revert s.
  induction entries as [|b entries IH]; intros s H; cbn [fold_left];
    [assumption|].
  apply IH. now apply onEntry_paired.
Qed.

Lemma step_paired p env i s :
  Env.prefersReducedMotion env = false ->
  paired p s -> paired p (step p env i s).
Proof.
  intros Hrm H. destruct i as [entries|changed|]; cbn [step].
  - destruct (observer s); [now apply observerCallback_paired | assumption].
  - destruct (changed || negb (Bool.eqb (hasAnimated s) (depHasAnimated s)));
      [|assumption].
    unfold effect. rewrite Hrm. exact H.
  - destruct H as [H0 H1]. split; cbn.
    + intro Ha. destruct (H0 Ha) as (-> & -> & ->). repeat split.
    + intro E. rewrite (H1 E). lia.
Qed.

Lemma observerCallback_quiet p o entries s :
  existsb (fun b => b) entries = false ->
  observerCallback p o entries s = s.
Proof.
  unfold observerCallback. revert s.
  induction entries as [|b entries IH]; intros s H; cbn [fold_left existsb] in *;
    [reflexivity|].
  apply orb_false_iff in H. destruct H as [-> H].
  unfold onEntry at 2. cbn [andb]. now apply IH.
Qed.

Lemma step_quiet p env i s :
  Env.prefersReducedMotion env = false ->
  noIntersection i = true ->
  hasAnimated s = false -> hasAnimated (step p env i s) = false.
Proof.
  intros Hrm Hq Ha. destruct i as [entries|changed|]; cbn [step].
  - cbn [noIntersection] in Hq. apply negb_true_iff in Hq.
    destruct (observer s); [|assumption].
    now rewrite observerCallback_quiet.
  - destruct (changed || negb (Bool.eqb (hasAnimated s) (depHasAnimated s)));
      [|assumption].
    unfold effect. rewrite Hrm. exact Ha.
  - exact Ha.
Qed.

(** X12: without the reduced-motion preference nothing starts before an
    intersecting entry is delivered: while [hasAnimated] is false no
    transition has been started or queued and the start callback has not
    been called; inputs without an intersecting entry leave [hasAnimated]
    false; and when a start callback is supplied, its calls equal the
    started plus the queued transitions. *)
Theorem transition_starts_only_after_intersection
        (p : Props.t) (env : Env.t) (inputs : list Input) :
  Env.prefersReducedMotion env = false ->
  let s := run p env inputs (mount env) in
  (hasAnimated s = false ->
   visibleStarts s = 0 /\ startCalls s = 0 /\ frameRequests s = 0)
  /\ (forallb noIntersection inputs = true -> hasAnimated s = false)
  /\ (Props.onAnimationStart p = true ->
      startCalls s = visibleStarts s + frameRequests s).
Proof.
  intros Hrm s. subst s. rewrite (TriggerClaims.mount_waiting env Hrm).
  assert (paired p waiting) as H0.
  { split; intro; cbn; repeat split. }
  assert (hasAnimated waiting = false) as Ha0 by reflexivity.
  revert H0 Ha0. generalize waiting. unfold run.
  induction inputs as [|i inputs IH]; intros s0 H0 Ha0; cbn [fold_left].
  - destruct H0 as [H1 H2]. split; [exact H1|]. split; [|exact H2].
    intros _. exact Ha0.
  - pose proof (step_paired p env i s0 Hrm H0) as H1.
    destruct (hasAnimated (step p env i s0)) eqn:Ha1.
    + assert (forall ins s1, paired p s1 ->
                paired p (fold_left (fun acc j => step p env j acc) ins s1))
        as Hrun.
      { induction ins as [|j ins IHins]; intros s1 Hs1; cbn [fold_left];
          [assumption|].
        apply IHins. now apply step_paired. }
      destruct (Hrun inputs _ H1) as [G1 G2].
      split; [exact G1|]. split; [|exact G2].
      cbn [forallb]. intro Hq. apply andb_true_iff in Hq.
      destruct Hq as [Hq _].
      rewrite (step_quiet p env i s0 Hrm Hq Ha0) in Ha1. discriminate Ha1.
    + destruct (IH _ H1 Ha1) as (G1 & G2 & G3).
      split; [exact G1|]. split; [|exact G3].
      cbn [forallb]. intro Hq. apply andb_true_iff in Hq.
      apply G2. tauto.
Qed.

Lemma transition_starts_only_after_intersection_witness :
  let p := sampleProps Slide Medium true false in
  let env := sampleEnv 8 (Some 8%Q) desktopAgent in
  let s := run p env [Intersections [false]; Rerender true; AnimationFrame;
                      Intersections [false; false]] (mount env) in
  hasAnimated s = false /\ visibleStarts s = 0 /\ startCalls s = 0.
Proof.
  destruct (transition_starts_only_after_intersection
              (sampleProps Slide Medium true false)
              (sampleEnv 8 (Some 8%Q) desktopAgent)
              [Intersections [false]; Rerender true; AnimationFrame;
               Intersections [false; false]] eq_refl)
    as (H1 & H2 & _).
  pose proof (H2 eq_refl) as Ha.
  destruct (H1 Ha) as (Hv & Hs & _).
  split; [exact Ha|]. split; [exact Hv | exact Hs].
Defined.

Local Open Scope Q_scope.

(** X13: in both versions, for every animation type, intensity, flag and device,
    the hidden variant has opacity 0 and the visible variant is the
    untransformed element: opacity and scale 1, every offset, rotation and
    skew 0. *)
Theorem visible_variant_is_untransformed (p : Props.t) (env : Env.t) :
  untransformed (Variants.visible (getAnimationVariants p env))
  /\ untransformed
       (Variants.visible (AnimatedSectionAlt.getAnimationVariants p env))
  /\ JS.get "opacity" (Variants.hidden (getAnimationVariants p env))
     = Some 0
  /\ JS.get "opacity"
            (Variants.hidden (AnimatedSectionAlt.getAnimationVariants p env))
     = Some 0.
Proof.
  unfold untransformed, getAnimationVariants,
    AnimatedSectionAlt.getAnimationVariants.
  destruct (Env.prefersReducedMotion env).
  - repeat split; repeat (constructor; [vm_compute; reflexivity|]);
      constructor.
  - set (use3D := Settings.enable3D _).
    set (low := isLow _).
    destruct (Props.animationType p), use3D, low;
      (split; [repeat (constructor; [vm_compute; reflexivity|]); constructor|]);
      (split; [repeat (constructor; [vm_compute; reflexivity|]); constructor|]);
      split; reflexivity.
Qed.



End SectionLawsFacts.

(** ** Device rating, flat variants and the particle trail (part_001) *)

Module CapabilityLaws.

Import Motion SectionSpec SectionLaws.
Local Open Scope Q_scope.

Lemma geb_ge a b : JS.geb a b = true <-> b <= a.
Proof. unfold JS.geb. apply Qle_bool_iff. Qed.

(** X15: the device is rated high exactly when a window exists, reduced motion
    is off, at least 8 cores are reported (a missing or zero count counts
    as 4) and the reported memory is absent, zero or at least 8: the two
    low-end tests need no separate mention, ample memory and 8 cores rule
    them out. *)
Theorem high_rating_needs_cores_and_memory (env : Env.t) :
  AnimatedSectionAlt.getDevicePerformance env = PerfHigh
  <-> (Env.windowDefined env = true
       /\ Env.prefersReducedMotion env = false
       /\ (8 <= effectiveCores env)%nat
       /\ memoryAmple env = true).
Proof.
  unfold AnimatedSectionAlt.getDevicePerformance, effectiveCores, memoryAmple.
  destruct (Env.windowDefined env); cbn [negb];
    [|split; [intro H; discriminate H | intros (H & _); discriminate H]].
  destruct (Env.prefersReducedMotion env);
    [split; [intro H; discriminate H | intros (_ & H & _); discriminate H]|].
  set (cores := match Env.hardwareConcurrency env with
                | Some (S n) => S n
                | _ => 4%nat
                end).
  set (mobile := JS.testAnyIgnoreCase _ _).
  destruct (8 <=? cores)%nat eqn:E8;
    [apply Nat.leb_le in E8 | apply Nat.leb_gt in E8].
  - assert ((cores <? 4)%nat = false) as -> by (apply Nat.ltb_ge; lia).
    rewrite andb_false_r.
    destruct (Env.deviceMemory env) as [m|]; [|cbn; tauto].
    destruct (JS.truthy m); cbn [andb orb negb]; [|tauto].
    destruct (JS.ltb m 4) eqn:E4; destruct (JS.geb m 8) eqn:Eg;
      cbn [andb]; try tauto.
    + apply ltb_lt in E4. apply geb_ge in Eg. lra.
    + split; [intro H; discriminate H | intros (_ & _ & _ & H); discriminate H].
    + split; [intro H; discriminate H | intros (_ & _ & _ & H); discriminate H].
  - cbn [andb].
    assert (forall d, (if mobile && (cores <? 4)%nat then PerfLow else d)
                      = PerfHigh -> d = PerfHigh) as Hd
        by (intros d; destruct (mobile && (cores <? 4)%nat);
            [intro H; discriminate H | tauto]).
    split.
    + intro H.
      destruct (match Env.deviceMemory env with
                | Some m => JS.truthy m && JS.ltb m 4
                | None => false
                end); [discriminate H|].
      apply Hd in H. discriminate H.
    + intros (_ & _ & H & _). lia.
Qed.

(** X16: on a device rated low the capability-branching version is flat:
    3D is off whatever [enable3D] says, neither variant has a [z] key, the
    hidden variant has no [skewY] key and the visible one has it absent or
    zero ([morph] sets [skewY: 0] there), every rotation of the hidden
    variant is absent or zero, and the particle trail is not rendered. *)
Theorem low_device_gets_flat_variants (p : Props.t) (env : Env.t) :
  isLow (AnimatedSectionAlt.getDevicePerformance env) = true ->
  let v := AnimatedSectionAlt.getAnimationVariants p env in
  Settings.enable3D (AnimatedSectionAlt.optimizedSettings p env) = false
  /\ JS.get "z" (Variants.hidden v) = None
  /\ JS.get "z" (Variants.visible v) = None
  /\ JS.get "skewY" (Variants.hidden v) = None
  /\ absentOrZero "skewY" (Variants.visible v)
  /\ (absentOrZero "rotateX" (Variants.hidden v)
      /\ absentOrZero "rotateY" (Variants.hidden v)
      /\ absentOrZero "rotateZ" (Variants.hidden v)
      /\ absentOrZero "rotate" (Variants.hidden v))
  /\ ParticleTrail.renderedTrail p env = None.
Proof.
  intro Hlow. cbv zeta.
  assert (AnimatedSectionAlt.getDevicePerformance env = PerfLow) as Hp
      by (destruct (AnimatedSectionAlt.getDevicePerformance env);
          [reflexivity | discriminate Hlow | discriminate Hlow]).
  unfold ParticleTrail.renderedTrail, AnimatedSectionAlt.getAnimationVariants,
    AnimatedSectionAlt.optimizedSettings, AnimatedSectionAlt.devicePerformance,
    absentOrZero.
  rewrite Hp. cbn [isLow isHigh negb Settings.enable3D Settings.enableParticles
                   Settings.duration].
  rewrite !andb_false_r.
  destruct (Env.prefersReducedMotion env); destruct (Props.animationType p);
    cbn; repeat split; reflexivity.
Qed.

Lemma low_device_gets_flat_variants_witness :
  let p := sampleProps Explode Heavy true true in
  let env := sampleEnv 2 None phoneAgent in
  Settings.enable3D (AnimatedSectionAlt.optimizedSettings p env) = false
  /\ JS.get "z" (Variants.hidden (AnimatedSectionAlt.getAnimationVariants
                                    p env)) = None.
Proof.
  destruct (low_device_gets_flat_variants
              (sampleProps Explode Heavy true true)
              (sampleEnv 2 None phoneAgent) eq_refl)
    as (H1 & H2 & _).
  split; [exact H1 | exact H2].
Defined.

(** X17: the trail that part_001 renders is always the full one: it is rendered
    only with [enableParticles] on a device rated high, and then has 5, 10
    or 20 particles by intensity; the reduced counts for low and medium
    devices are never used by this component. *)
Theorem rendered_trail_is_full (p : Props.t) (env : Env.t) (count : Q) :
  ParticleTrail.renderedTrail p env = Some count ->
  Props.enableParticles p = true
  /\ AnimatedSectionAlt.getDevicePerformance env = PerfHigh
  /\ count = ParticleTrail.baseCount (Props.intensity p)
  /\ Rendered.particleTrail (AnimatedSectionAlt.render p env) = true.
Proof.
  unfold ParticleTrail.renderedTrail, AnimatedSectionAlt.render,
    AnimatedSectionAlt.optimizedSettings, AnimatedSectionAlt.devicePerformance.
  cbn [Settings.enableParticles Rendered.particleTrail].
  destruct (Props.enableParticles p); cbn [andb];
    [|intro H; discriminate H].
  destruct (AnimatedSectionAlt.getDevicePerformance env); cbn [isHigh];
    intro H; try discriminate H.
  injection H as <-. repeat split.
Qed.

Lemma rendered_trail_is_full_witness :
  let p := sampleProps Slide Heavy true true in
  let env := sampleEnv 16 (Some 16) desktopAgent in
  ParticleTrail.renderedTrail p env = Some 20
  /\ AnimatedSectionAlt.getDevicePerformance env = PerfHigh.
Proof.
  split; [reflexivity|].
  exact (proj1 (proj2 (rendered_trail_is_full
                         (sampleProps Slide Heavy true true)
                         (sampleEnv 16 (Some 16) desktopAgent) 20
                         eq_refl))).
Defined.

(** X18: the trail has between 2 and 20 particles, a whole number, and never
    more on a slower device: low <= medium <= high = base count. *)
Theorem trail_count_grows_with_device (i : Intensity) :
  2 <= ParticleTrail.particleCount i PerfLow
  /\ ParticleTrail.particleCount i PerfLow
     <= ParticleTrail.particleCount i PerfMedium
  /\ ParticleTrail.particleCount i PerfMedium
     <= ParticleTrail.particleCount i PerfHigh
  /\ ParticleTrail.particleCount i PerfHigh <= 20
  /\ (forall d, ParticleTrail.particleCount i d
                == inject_Z (Qfloor (ParticleTrail.particleCount i d))).
Proof.
  destruct i; repeat split; try (vm_compute; intro H; discriminate H);
    intro d; destruct d; vm_compute; reflexivity.
Qed.

End CapabilityLaws.

(** ** Header *)

Module HeaderFacts.

Import Header HeaderLaws.

Lemma handle_scrolled i s :
  scrolled (handle i s)
  = match i with Scroll y => JS.gtb y 50 | _ => scrolled s end.
Proof.
  destruct i as [y| | |found|found]; cbn [handle]; try reflexivity.
  - destruct (mobileMenuOpen s); reflexivity.
  - unfold scrollToEvents. destruct found; reflexivity.
  - destruct (mobileMenuOpen s); [|reflexivity].
    unfold scrollToEvents. destruct found; reflexivity.
Qed.

(** X19: the header background follows the last scroll position only: after any
    sequence of scrolls, menu clicks and Register clicks, [scrolled] tells
    whether the most recent scroll position was above 50 (and is unchanged
    if there was no scroll). *)
Theorem scrolled_tracks_last_scroll (inputs : list Input) (s : State) :
  scrolled (run inputs s)
  = match lastScroll inputs with
    | Some y => JS.gtb y 50
    | None => scrolled s
    end.
Proof.
  unfold run. revert s.
  induction inputs as [|i inputs IH]; intro s; cbn [fold_left lastScroll];
    [reflexivity|].
  rewrite IH. destruct (lastScroll inputs); [reflexivity|].
  rewrite handle_scrolled. destruct i; reflexivity.
Qed.

Lemma handle_menu_closed i s :
  isMenuButtonClick i = false -> mobileMenuOpen s = false ->
  mobileMenuOpen (handle i s) = false.
Proof.
  intros Hi Hm. destruct i as [y| | |found|found]; cbn [handle];
    try discriminate Hi; try rewrite Hm; try assumption.
  unfold scrollToEvents. destruct found; assumption.
Qed.

(** X20: the mobile menu opens only through the menu button and closes on
    navigation: a trace without menu-button clicks leaves a closed menu
    closed, and right after a click on a mobile link or on the mobile
    Register button the menu is closed, whatever came before. *)
Theorem mobile_menu_opens_by_button_closes_on_navigation
        (inputs : list Input) (s : State) (i : Input) :
  (forallb (fun j => negb (isMenuButtonClick j)) inputs = true ->
   mobileMenuOpen s = false -> mobileMenuOpen (run inputs s) = false)
  /\ (isMobileNavigation i = true ->
      mobileMenuOpen (run (inputs ++ [i]) s) = false).
Proof.
  split.
  - unfold run. revert s.
    induction inputs as [|j inputs IH]; intros s Hall Hm;
      cbn [fold_left forallb] in *; [assumption|].
    apply andb_true_iff in Hall. destruct Hall as [Hj Hall].
    apply negb_true_iff in Hj. apply IH; [assumption|].
    now apply handle_menu_closed.
  - intro Hi. unfold run. rewrite fold_left_app. cbn [fold_left].
    set (s1 := fold_left _ inputs s).
    destruct i as [y| | |found|found]; try discriminate Hi; cbn [handle].
    + destruct (mobileMenuOpen s1) eqn:E; [reflexivity | exact E].
    + destruct (mobileMenuOpen s1) eqn:E; [|exact E].
      unfold scrollToEvents. destruct found; reflexivity.
Qed.

Lemma mobile_menu_opens_by_button_closes_on_navigation_witness :
  mobileMenuOpen (run [Scroll 120%Q; DesktopRegisterClick true;
                       MobileLinkClick] initial) = false
  /\ mobileMenuOpen (run ([MenuButtonClick; Scroll 10%Q]
                            ++ [MobileRegisterClick false]) initial) = false.
Proof.
  split.
  - exact (proj1 (mobile_menu_opens_by_button_closes_on_navigation
                    [Scroll 120%Q; DesktopRegisterClick true; MobileLinkClick]
                    initial MobileLinkClick) eq_refl eq_refl).
  - exact (proj2 (mobile_menu_opens_by_button_closes_on_navigation
                    [MenuButtonClick; Scroll 10%Q] initial
                    (MobileRegisterClick false)) eq_refl).
Defined.

End HeaderFacts.

(** ** Bursts alone, and the trigger latch, on concrete runs *)

Module RunLaws.

Import EventCard3D CardSpec CardFacts CardLaws.

(** X1: bursts never break the cap: from a fresh card, any sequence of inputs
    that contains no click on the card surface (hovers, moves, interval
    ticks, focus, frames, Register clicks) leaves at most 20 particles. *)
Theorem bursts_alone_respect_cap
        (title : string) (trace : list (Z * Input)) (rnd : nat -> Q) :
  forallb (fun ti => negb (isCardClick (snd ti))) trace = true ->
  (List.length (particles (run title trace (initial rnd))) <= 20)%nat.
Proof.
  intro Hall. apply run_keeps_cap; [exact Hall|]. cbn. lia.
Qed.

Lemma bursts_alone_respect_cap_witness :
  (List.length
     (particles
        (run "Capitalyze"
             ((0%Z, ParentHover true) :: (0%Z, PointerEnter)
                :: map (fun k => (800 * Z.of_nat k, IntervalTick))%Z
                       (seq 1 12))
             (initial (fun _ => 0.5%Q)))) <= 20)%nat.
Proof.
  apply bursts_alone_respect_cap. vm_compute. reflexivity.
Defined.

Import Motion SectionSpec.

Lemma hasAnimated_never_resets_witness :
  let p := sampleProps Rotate Light true false in
  let env := sampleEnv 4 None desktopAgent in
  AnimatedSection.hasAnimated
    (AnimatedSection.run p env
       [AnimatedSection.Intersections [false];
        AnimatedSection.Rerender true;
        AnimatedSection.Intersections [true; false];
        AnimatedSection.AnimationFrame]
       (triggered p)) = true.
Proof.
  exact (TriggerClaims.hasAnimated_never_resets
           (sampleProps Rotate Light true false)
           (sampleEnv 4 None desktopAgent)
           [AnimatedSection.Intersections [false];
            AnimatedSection.Rerender true;
            AnimatedSection.Intersections [true; false];
            AnimatedSection.AnimationFrame]
           (triggered (sampleProps Rotate Light true false)) eq_refl).
Defined.

Lemma one_shot_in_settled_schedule_witness :
  let p := sampleProps Rotate Light true false in
  let env := sampleEnv 4 None desktopAgent in
  fold_left (fun acc b => settledRound p env b acc)
            [false; true; false; true; true] (AnimatedSection.mount env)
  = triggered p.
Proof.
  exact (TriggerClaims.one_shot_in_settled_schedule
           (sampleProps Rotate Light true false)
           (sampleEnv 4 None desktopAgent)
           [false; true; false; true; true] eq_refl).
Defined.

End RunLaws.
